(** * The memory subsystem: write-back engine, orchestrator, classifier

    A shallow embedding of [async_memory_manager.{h,cpp}] and
    [advanced_memory_manager.{h,cpp}].

    Conventions.
    - [std::string] is [string]: a sequence of 8-bit characters; the Chinese
      keywords of the classifier are the UTF-8 bytes of the source file.
    - [size_t] is a [Z] in the range [0, 2^64) with the wrap-around written
      out ([wrap]); [float] is an IEEE binary32 value ([spec_float] at
      precision 24, maximal exponent 128).
    - The collaborators whose code is not part of these files (the base
      store [MemoryManager], [LRUCache]) are interfaces; the write-only ones
      ([WeightManager], [EventBus]) are the log of the calls made to them.
    - The clock ([time(nullptr)], [high_resolution_clock]) is an input of the
      operation that reads it, and so is what becomes of a write to the
      files ([Async.Outcome]): a stream that does not open or fails, an
      exception.
    - The threads: an operation that holds [pendingMutex] throughout is one
      step; the turn of the write-back worker, which gives the mutex up
      before it writes, is two, with the batch it holds in between
      ([Async.Live]); the snapshot of the statistics, which takes no lock,
      is given the state at each of its loads. *)

From Stdlib Require Import String Ascii List ZArith Lia Bool Arith.
From Stdlib Require Import Sorting.Sorted Sorting.Permutation.
From Stdlib Require Import Structures.OrderedTypeEx.
From Stdlib Require Import Numbers.DecimalString.
From Stdlib Require Import Floats.SpecFloat.
Import ListNotations.

Open Scope string_scope.
Open Scope list_scope.

(** ** Data model (declared in [memory_manager.h], used as below) *)

Inductive MemoryType := Short | Mid | Long.

(** The enumeration order is the integer encoding written to disk. *)
Inductive MemoryCategory := Work | Family | Friendship | Happiness | Other.

Record MemoryItem := mkItem {
  content : string;
  type : MemoryType;
  category : MemoryCategory;
  timestamp : string
}.

Definition MemoryCategory_eqb (a b : MemoryCategory) : bool :=
  match a, b with
  | Work, Work | Family, Family | Friendship, Friendship
  | Happiness, Happiness | Other, Other => true
  | _, _ => false
  end.

(** [static_cast<int>(category)] *)
Definition category_to_int (c : MemoryCategory) : Z :=
  match c with
  | Work => 0 | Family => 1 | Friendship => 2 | Happiness => 3 | Other => 4
  end%Z.

(** [std::to_string] on an integer *)
Definition to_string (z : Z) : string := NilEmpty.string_of_int (Z.to_int z).

(** ** Strings: [::tolower] and [std::string::find] *)

Module Str.

Local Open Scope string_scope.

(** [::tolower] in the "C" locale: only the 26 upper-case ASCII letters move. *)
Definition tolower (c : ascii) : ascii :=
  let n := nat_of_ascii c in
  if (65 <=? n)%nat && (n <=? 90)%nat then ascii_of_nat (n + 32) else c.

(** [std::transform(s.begin(), s.end(), s.begin(), ::tolower)] *)
Fixpoint transform_tolower (s : string) : string :=
  match s with
  | EmptyString => EmptyString
  | String c s' => String (tolower c) (transform_tolower s')
  end.

(** [s.find(pat)]: the index of the first occurrence, [None] for [npos]. *)
Fixpoint find (s pat : string) : option nat :=
  if prefix pat s then Some 0%nat
  else match s with
       | EmptyString => None
       | String _ s' => option_map S (find s' pat)
       end.

(** [s.find(pat) != std::string::npos] *)
Definition found (s pat : string) : bool :=
  match find s pat with Some _ => true | None => false end.

(** What a substring is, independently of the search. *)
Definition occurs_in (pat s : string) : Prop :=
  exists pre post, s = pre ++ pat ++ post.

End Str.

(** ** The classifier ([AdvancedMemoryManager::classifyMemory]) *)

Definition classifyMemory (content : string) : MemoryCategory :=
  let lowerContent := Str.transform_tolower content in
  if Str.found lowerContent "工作" || Str.found lowerContent "项目" then Work
  else if Str.found lowerContent "家庭" || Str.found lowerContent "父母" then Family
  else if Str.found lowerContent "朋友" || Str.found lowerContent "聚会" then Friendship
  else if Str.found lowerContent "开心" || Str.found lowerContent "高兴" then Happiness
  else Other.

(** The classifier as the specification words it: a keyword set per
    category, the categories tried in a fixed order, the first one with a
    keyword occurring in the lower-cased text wins, [Other] when none does. *)
Definition keywords (c : MemoryCategory) : list string :=
  match c with
  | Work => ["工作"; "项目"]
  | Family => ["家庭"; "父母"]
  | Friendship => ["朋友"; "聚会"]
  | Happiness => ["开心"; "高兴"]
  | Other => []
  end.

Definition classify_order : list MemoryCategory :=
  [Work; Family; Friendship; Happiness].

Definition matches (c : MemoryCategory) (text : string) : Prop :=
  exists k, In k (keywords c) /\ Str.occurs_in k text.

Inductive first_match (text : string) : list MemoryCategory -> MemoryCategory -> Prop :=
| fm_none : first_match text [] Other
| fm_here c cs : matches c text -> first_match text (c :: cs) c
| fm_later c cs r : ~ matches c text -> first_match text cs r ->
                    first_match text (c :: cs) r.

(** The same as a program, for evaluation. *)
Definition classify_spec (text : string) : MemoryCategory :=
  let l := Str.transform_tolower text in
  match List.find (fun c => existsb (Str.found l) (keywords c)) classify_order with
  | Some c => c
  | None => Other
  end.

(** Characters above the ASCII range, where [tolower] neither moves a
    character nor maps another one onto it; the bytes of the keywords are
    all of this kind. *)
Definition high (c : ascii) : bool := (128 <=? nat_of_ascii c)%nat.

Fixpoint all_high (s : string) : bool :=
  match s with
  | EmptyString => true
  | String c s' => high c && all_high s'
  end.

(** ** Machine numbers *)

(** [size_t] arithmetic is modulo [2^64]. *)
Definition SIZE_MOD : Z := 2 ^ 64.
Definition wrap (z : Z) : Z := z mod SIZE_MOD.

(** [float]: IEEE binary32. *)
Definition float := spec_float.
Definition prec : Z := 24.
Definition emax : Z := 128.
Definition fzero : float := S754_zero false.
Definition fadd : float -> float -> float := SFadd prec emax.
(** Conversion of an integer to [float], rounding to nearest. *)
Definition float_of_Z (z : Z) : float := binary_normalize prec emax z 0 false.



(** ** Collaborators *)

(** The base store [MemoryManager], of which [AsyncMemoryManager] is a
    subclass: the member functions these files call.  [now] is the clock
    reading of the call. *)
Class MemoryManager (B : Type) := {
  base_addMemory : string -> MemoryType -> MemoryCategory -> Z -> B -> B;
  base_save : B -> B;
  base_getAllMemories : B -> list MemoryItem;
  base_getRecentMemories : B -> list MemoryItem;
  base_getTopMemories : Z -> B -> list MemoryItem;
  base_getRelatedMemories : string -> Z -> B -> list MemoryItem
}.

(** [LRUCache<std::string, MemoryItem>]: [get] may reorder the entries, so
    it returns the cache too. *)
Class LRUCache (C : Type) := {
  cache_create : Z -> C;
  cache_get : string -> C -> option MemoryItem * C;
  cache_put : string -> MemoryItem -> C -> C
}.

(** The three destination files, each the list of the lines appended so
    far ([SHORT_PATH], [MID_PATH] and [LONG_PATH] name them). *)
Record Disk := mkDisk {
  SHORT_PATH : list string;
  MID_PATH : list string;
  LONG_PATH : list string
}.

Definition destination (t : MemoryType) (d : Disk) : list string :=
  match t with
  | Short => SHORT_PATH d
  | Mid => MID_PATH d
  | Long => LONG_PATH d
  end.

(** ** The write-back engine ([AsyncMemoryManager]) *)

Module Async.

Definition BATCH_SIZE : nat := 100.

(** The line [saveBatch] builds for an item. *)
Definition line (item : MemoryItem) : string :=
  (content item ++ "|" ++ to_string (category_to_int (category item)) ++ "|"
     ++ timestamp item ++ String "010" "")%string.

(** What happens to one call of [saveBatch], which the call cannot see: for
    each destination the number of lines its stream takes before it fails
    ([Some 0] when the file does not open, [None] when the stream never
    fails), and the turn of the loop in which an exception is thrown, if
    one is.  The streams are not checked, so what is sent to a failed stream
    is dropped without an error; an exception ends the loop and is caught,
    the lines sent before it staying written. *)
Record Outcome := mkOutcome {
  fails_after : MemoryType -> option nat;
  throws_at : option nat
}.

(** Every stream opens and takes every line, and nothing is thrown. *)
Definition success : Outcome := mkOutcome (fun _ => None) None.

(** The streams [sfile], [mfile] and [lfile] during a call: the number of
    lines each still takes. *)
Record Streams := mkStreams {
  sfile : option nat;
  mfile : option nat;
  lfile : option nat
}.

Definition open_streams (io : Outcome) : Streams :=
  mkStreams (fails_after io Short) (fails_after io Mid) (fails_after io Long).

(** Whether a stream takes one more line, and what it takes after it. *)
Definition takes (room : option nat) : bool :=
  match room with
  | Some O => false
  | _ => true
  end.

Definition spend (room : option nat) : option nat :=
  match room with
  | Some (S n) => Some n
  | _ => room
  end.

(** One turn of the loop of [saveBatch]: the [switch] on the type and the
    [<<] on the stream of that type. *)
Definition write_item (st : Streams * Disk) (item : MemoryItem) : Streams * Disk :=
  let '(f, d) := st in
  match type item with
  | Short =>
      (mkStreams (spend (sfile f)) (mfile f) (lfile f),
       if takes (sfile f)
       then mkDisk (SHORT_PATH d ++ [line item]) (MID_PATH d) (LONG_PATH d) else d)
  | Mid =>
      (mkStreams (sfile f) (spend (mfile f)) (lfile f),
       if takes (mfile f)
       then mkDisk (SHORT_PATH d) (MID_PATH d ++ [line item]) (LONG_PATH d) else d)
  | Long =>
      (mkStreams (sfile f) (mfile f) (spend (lfile f)),
       if takes (lfile f)
       then mkDisk (SHORT_PATH d) (MID_PATH d) (LONG_PATH d ++ [line item]) else d)
  end.

(** The items the loop gets to before an exception ends it. *)
Definition attempted (io : Outcome) (batch : list MemoryItem) : list MemoryItem :=
  match throws_at io with
  | Some k => firstn k batch
  | None => batch
  end.

Definition saveBatch (io : Outcome) (batch : list MemoryItem) (d : Disk) : Disk :=
  snd (fold_left write_item (attempted io batch) (open_streams io, d)).

(** [while (!pendingWrites.empty() && batch.size() < BATCH_SIZE)]: moves the
    front of the queue to the back of the batch; returns the batch and what
    is left of the queue. *)
Fixpoint drain (pending batch : list MemoryItem) : list MemoryItem * list MemoryItem :=
  match pending with
  | [] => (batch, [])
  | front :: pending' =>
      if (length batch <? BATCH_SIZE)%nat
      then drain pending' (batch ++ [front])
      else (batch, pending)
  end.

Section WithBase.

Context {B : Type} `{MemoryManager B}.

Record AsyncMemoryManager := mk {
  base : B;                          (* the [MemoryManager] subobject *)
  pendingWrites : list MemoryItem;   (* front of the queue first *)
  saveThread : bool;                 (* the worker runs and is joinable *)
  shouldStop : bool;
  isSavingFlag : bool;
  disk : Disk
}.

Definition with_pending (q : list MemoryItem) (d : Disk) (s : AsyncMemoryManager) :=
  mk (base s) q (saveThread s) (shouldStop s) (isSavingFlag s) d.

(** The constructor, over a base store and a disk: the worker starts. *)
Definition create (b : B) (d : Disk) : AsyncMemoryManager :=
  mk b [] true false false d.

(** [saveCondition.notify_one()]: no state of its own. *)
Definition asyncSave (s : AsyncMemoryManager) : AsyncMemoryManager := s.

Definition addMemory (c : string) (t : MemoryType) (cat : MemoryCategory)
    (now : Z) (s : AsyncMemoryManager) : AsyncMemoryManager :=
  let b := base_addMemory c t cat now (base s) in
  let item := mkItem c t cat (to_string now) in
  let s := mk b (pendingWrites s ++ [item]) (saveThread s) (shouldStop s)
              (isSavingFlag s) (disk s) in
  if (BATCH_SIZE <=? length (pendingWrites s))%nat then asyncSave s else s.

Definition getPendingBatch (s : AsyncMemoryManager) : list MemoryItem * AsyncMemoryManager :=
  let '(batch, rest) := drain (pendingWrites s) [] in
  (batch, with_pending rest (disk s) s).

(** [flushPendingWrites] holds [pendingMutex] from the test of the queue to
    the end of [saveBatch]. *)
Definition flushPendingWrites (io : Outcome) (s : AsyncMemoryManager) : AsyncMemoryManager :=
  match pendingWrites s with
  | [] => s
  | _ :: _ =>
      let '(batch, rest) := drain (pendingWrites s) [] in
      match batch with
      | [] => with_pending rest (disk s) s
      | _ :: _ => with_pending rest (saveBatch io batch (disk s)) s
      end
  end.

Definition save (io : Outcome) (s : AsyncMemoryManager) : AsyncMemoryManager :=
  let s := flushPendingWrites io s in
  mk (base_save (base s)) (pendingWrites s) (saveThread s) (shouldStop s)
     (isSavingFlag s) (disk s).

(** The loop of [saveWorker] in its two parts.  Under [pendingMutex]: with
    [shouldStop] set the loop is left and nothing is taken, otherwise
    [getPendingBatch] moves a batch to the local [batch] of the worker. *)
Definition saveWorker_take (s : AsyncMemoryManager) : list MemoryItem * AsyncMemoryManager :=
  if shouldStop s then ([], s) else getPendingBatch s.

(** After [lock.unlock()]: a batch that is not empty is given to
    [saveBatch]; [isSavingFlag] is raised before and is down again after.
    Other threads run between the two parts. *)
Definition saveWorker_write (io : Outcome) (batch : list MemoryItem)
    (s : AsyncMemoryManager) : AsyncMemoryManager :=
  match batch with
  | [] => s
  | _ :: _ => with_pending (pendingWrites s) (saveBatch io batch (disk s)) s
  end.

(** A whole turn of the loop, for the case that no other thread runs
    between its two parts. *)
Definition saveWorker_turn (io : Outcome) (s : AsyncMemoryManager) : AsyncMemoryManager :=
  let '(batch, s) := saveWorker_take s in
  saveWorker_write io batch s.

(** The destructor when the worker holds no batch: stop and join the
    worker, then [flushPendingWrites]. *)
Definition destroy (io : Outcome) (s : AsyncMemoryManager) : AsyncMemoryManager :=
  let s := mk (base s) (pendingWrites s) false true (isSavingFlag s) (disk s) in
  flushPendingWrites io s.

(** A live engine: the object, and the batch the worker holds between the
    two parts of its turn (empty when it holds none). *)
Record Live := mkLive {
  engine : AsyncMemoryManager;
  batch : list MemoryItem
}.

(** The destructor of a live engine: the join lets the worker write the
    batch it holds. *)
Definition shutdown (joined flushed : Outcome) (l : Live) : AsyncMemoryManager :=
  destroy flushed (saveWorker_write joined (batch l) (engine l)).

(** The steps of a live engine: foreground [addMemory] calls interleaved
    with the two parts of the turns of the worker, which takes a batch only
    after it has written the one before. *)
Inductive step : Live -> Live -> Prop :=
| step_addMemory c t cat now l :
    step l (mkLive (addMemory c t cat now (engine l)) (batch l))
| step_take l :
    batch l = [] ->
    step l (mkLive (snd (saveWorker_take (engine l))) (fst (saveWorker_take (engine l))))
| step_write io l :
    step l (mkLive (saveWorker_write io (batch l) (engine l)) []).

Inductive live (b : B) (d : Disk) : Live -> Prop :=
| live_create : live b d (mkLive (create b d) [])
| live_step l l' : live b d l -> step l l' -> live b d l'.

(** The states of the object of a live engine. *)
Definition reachable (b : B) (d : Disk) (s : AsyncMemoryManager) : Prop :=
  exists held, live b d (mkLive s held).

(** [n] calls of [addMemory] in a row, the [k]-th with content [c k]. *)
Fixpoint addMany (c : nat -> string) (t : MemoryType) (cat : MemoryCategory)
    (now : Z) (n : nat) (s : AsyncMemoryManager) : AsyncMemoryManager :=
  match n with
  | O => s
  | S n' => addMemory (c n') t cat now (addMany c t cat now n' s)
  end.

End WithBase.

End Async.

(** ** The orchestrator ([AdvancedMemoryManager]) *)

(** What is published on the event bus. *)
Inductive Event :=
| MEMORY_ADDED (item : MemoryItem)
| MEMORY_SEARCHED (query : string)
| WEIGHT_UPDATED (content : string) (weight : float)
| SYSTEM_STARTED
| SYSTEM_STOPPED.

(** The calls received by the [WeightManager]. *)
Inductive WeightCall :=
| recordAccess (content : string) (timestamp : string)
| updateMemoryWeight_ (content : string) (weight : float)
| cleanupExpiredData
| updateWeights (memories : list MemoryItem) (timestamp : string).

(** The optional semantic search engine: its ranked answers, and how often
    its cleanup was called. *)
Record SemanticSearch := mkSemantic {
  semantic_search : string -> Z -> float -> list (MemoryItem * float);
  semantic_cleanups : nat
}.

(** The comparator given to [std::sort] and the predicate given to
    [std::unique] by [searchMemoriesBatch]. *)
Definition content_lt (a b : MemoryItem) : bool := String.ltb (content a) (content b).
Definition content_eq (a b : MemoryItem) : bool := String.eqb (content a) (content b).

(** What [std::sort] guarantees of two neighbours [a], [b] of its result:
    [comp(b, a)] is false. *)
Definition not_below (a b : MemoryItem) : Prop := content_lt b a = false.

(** Contents in strictly increasing order. *)
Definition below (a b : MemoryItem) : Prop := content_lt a b = true.

(** The contract of [std::sort] with the comparator [content_lt]: the
    result is a rearrangement of the range, in which no element is below
    its predecessor.  The order of items of equal content is left open. *)
Definition std_sort_contract (sort : list MemoryItem -> list MemoryItem) : Prop :=
  forall l, Permutation (sort l) l /\ Sorted not_below (sort l).

(** [std::unique(first, last, content_eq)] followed by [erase]: an element is
    kept when it differs from the last element kept. *)
Fixpoint unique_after (kept : MemoryItem) (l : list MemoryItem) : list MemoryItem :=
  match l with
  | [] => []
  | x :: l' =>
      if content_eq kept x then unique_after kept l'
      else x :: unique_after x l'
  end.

Definition std_unique (l : list MemoryItem) : list MemoryItem :=
  match l with
  | [] => []
  | x :: l' => x :: unique_after x l'
  end.

(** A sort by insertion, one function that meets the contract of
    [std::sort]. *)
Fixpoint insert_by_content (x : MemoryItem) (l : list MemoryItem) : list MemoryItem :=
  match l with
  | [] => [x]
  | y :: l' => if content_lt y x then y :: insert_by_content x l' else x :: l
  end.

Definition insertion_sort (l : list MemoryItem) : list MemoryItem :=
  fold_right insert_by_content [] l.


Module Advanced.

Section WithCollaborators.

Context {B : Type} `{MemoryManager B} {C : Type} `{LRUCache C}.

(** [std::sort] with the comparator [content_lt]; it is not a stable sort,
    so only its contract is used (see [std_sort_contract]). *)
Variable std_sort : list MemoryItem -> list MemoryItem.

Record AdvancedMemoryManager := mk {
  asyncManager_ : @Async.AsyncMemoryManager B;
  semanticSearch_ : option SemanticSearch;
  weightManager_ : list WeightCall;     (* calls received, oldest first *)
  eventManager_ : bool;                 (* started *)
  eventBus : list Event;                (* events published, oldest first *)
  memoryCache_ : C;
  searchThreshold_ : float;
  running_ : bool;
  backgroundThread_ : bool;             (* the maintenance loop is joinable *)
  totalSearches_ : Z;
  totalSearchTime_ : float;
  cacheHits_ : Z;
  cacheMisses_ : Z
}.

Definition with_async a (s : AdvancedMemoryManager) :=
  mk a (semanticSearch_ s) (weightManager_ s) (eventManager_ s) (eventBus s)
     (memoryCache_ s) (searchThreshold_ s) (running_ s) (backgroundThread_ s)
     (totalSearches_ s) (totalSearchTime_ s) (cacheHits_ s) (cacheMisses_ s).

Definition with_semantic sem (s : AdvancedMemoryManager) :=
  mk (asyncManager_ s) sem (weightManager_ s) (eventManager_ s) (eventBus s)
     (memoryCache_ s) (searchThreshold_ s) (running_ s) (backgroundThread_ s)
     (totalSearches_ s) (totalSearchTime_ s) (cacheHits_ s) (cacheMisses_ s).

(** A call to the weight manager. *)
Definition weight_call (w : WeightCall) (s : AdvancedMemoryManager) :=
  mk (asyncManager_ s) (semanticSearch_ s) (weightManager_ s ++ [w])
     (eventManager_ s) (eventBus s)
     (memoryCache_ s) (searchThreshold_ s) (running_ s) (backgroundThread_ s)
     (totalSearches_ s) (totalSearchTime_ s) (cacheHits_ s) (cacheMisses_ s).

(** [EventBus::getInstance().publish(event)]; the handlers subscribed by
    [setupEventHandlers] only write to the log. *)
Definition publish (e : Event) (s : AdvancedMemoryManager) :=
  mk (asyncManager_ s) (semanticSearch_ s) (weightManager_ s) (eventManager_ s)
     (eventBus s ++ [e])
     (memoryCache_ s) (searchThreshold_ s) (running_ s) (backgroundThread_ s)
     (totalSearches_ s) (totalSearchTime_ s) (cacheHits_ s) (cacheMisses_ s).

Definition with_cache c (s : AdvancedMemoryManager) :=
  mk (asyncManager_ s) (semanticSearch_ s) (weightManager_ s) (eventManager_ s)
     (eventBus s) c (searchThreshold_ s) (running_ s) (backgroundThread_ s)
     (totalSearches_ s) (totalSearchTime_ s) (cacheHits_ s) (cacheMisses_ s).

(** [running_], the event manager and the maintenance thread change
    together in [start] and [stop]. *)
Definition with_lifecycle (r : bool) (s : AdvancedMemoryManager) :=
  mk (asyncManager_ s) (semanticSearch_ s) (weightManager_ s) r (eventBus s)
     (memoryCache_ s) (searchThreshold_ s) r r
     (totalSearches_ s) (totalSearchTime_ s) (cacheHits_ s) (cacheMisses_ s).

Definition with_counters searches time hits misses (s : AdvancedMemoryManager) :=
  mk (asyncManager_ s) (semanticSearch_ s) (weightManager_ s) (eventManager_ s)
     (eventBus s) (memoryCache_ s) (searchThreshold_ s) (running_ s)
     (backgroundThread_ s) searches time hits misses.

(** The constructor: [initializeComponents] leaves [semanticSearch_] null
    (its initialisation is commented out); the system is not running. *)
Definition create (b : B) (d : Disk) : AdvancedMemoryManager :=
  mk (Async.create b d) None [] false [] (cache_create 1000)
     (SFdiv prec emax (float_of_Z 1) (float_of_Z 2)) false false
     0%Z fzero 0%Z 0%Z.

Definition addMemory (c : string) (t : MemoryType) (cat : MemoryCategory)
    (now : Z) (s : AdvancedMemoryManager) : AdvancedMemoryManager :=
  if negb (running_ s) then s
  else
    let cat := if MemoryCategory_eqb cat Other then classifyMemory c else cat in
    let s := with_async (Async.addMemory c t cat now (asyncManager_ s)) s in
    let currentTime := to_string now in
    let item := mkItem c t cat currentTime in
    let s := weight_call (recordAccess c currentTime) s in
    publish (MEMORY_ADDED item) s.

(** [duration] is the measured time of the lookup in milliseconds; it is
    read only on the path that reaches the statistics update. *)
Definition searchMemories (query : string) (maxResults : Z) (duration : Z)
    (s : AdvancedMemoryManager) : list MemoryItem * AdvancedMemoryManager :=
  let '(cached, cache) := cache_get query (memoryCache_ s) in
  let s := with_cache cache s in
  match cached with
  | Some item =>
      ([item],
       with_counters (totalSearches_ s) (totalSearchTime_ s)
                     (wrap (cacheHits_ s + 1)) (cacheMisses_ s) s)
  | None =>
      let s := with_counters (totalSearches_ s) (totalSearchTime_ s)
                             (cacheHits_ s) (wrap (cacheMisses_ s + 1)) s in
      let results :=
        match semanticSearch_ s with
        | Some sem => map fst (semantic_search sem query maxResults (searchThreshold_ s))
        | None => base_getRelatedMemories query maxResults (Async.base (asyncManager_ s))
        end in
      let s := with_counters (wrap (totalSearches_ s + 1))
                             (fadd (totalSearchTime_ s) (float_of_Z duration))
                             (cacheHits_ s) (cacheMisses_ s) s in
      let s := match results with
               | first :: _ => with_cache (cache_put query first (memoryCache_ s)) s
               | [] => s
               end in
      (results, publish (MEMORY_SEARCHED query) s)
  end.

(** The parameter [count] is not used by [getRecentMemories]. *)
Definition getRecentMemories (count : Z) (s : AdvancedMemoryManager) : list MemoryItem :=
  base_getRecentMemories (Async.base (asyncManager_ s)).

Definition getTopMemories (count : Z) (s : AdvancedMemoryManager) : list MemoryItem :=
  base_getTopMemories count (Async.base (asyncManager_ s)).

Definition updateMemoryWeight (c : string) (weight : float)
    (s : AdvancedMemoryManager) : AdvancedMemoryManager :=
  publish (WEIGHT_UPDATED c weight) (weight_call (updateMemoryWeight_ c weight) s).

Definition recordMemoryAccess (c : string) (now : Z)
    (s : AdvancedMemoryManager) : AdvancedMemoryManager :=
  weight_call (recordAccess c (to_string now)) s.

Definition cleanupExpiredMemories (s : AdvancedMemoryManager) : AdvancedMemoryManager :=
  let s := match semanticSearch_ s with
           | Some sem =>
               with_semantic
                 (Some (mkSemantic (semantic_search sem) (S (semantic_cleanups sem)))) s
           | None => s
           end in
  weight_call cleanupExpiredData s.

(** The calls read the clock one after the other; [now] is the reading of
    all of them. *)
Definition addMemoriesBatch (memories : list (string * MemoryType)) (now : Z)
    (s : AdvancedMemoryManager) : AdvancedMemoryManager :=
  fold_left (fun s m => addMemory (fst m) (snd m) Other now s) memories s.

(** The loop of [searchMemoriesBatch]: the results of the queries one after
    the other; the [k]-th lookup takes [nth k durations 0] milliseconds. *)
Fixpoint search_all (queries : list string) (maxResults : Z) (durations : list Z)
    (allResults : list MemoryItem) (s : AdvancedMemoryManager)
    : list MemoryItem * AdvancedMemoryManager :=
  match queries with
  | [] => (allResults, s)
  | query :: queries' =>
      let '(results, s) := searchMemories query maxResults (hd 0%Z durations) s in
      search_all queries' maxResults (tl durations) (allResults ++ results) s
  end.

(** The result of each query of a batch, in the order of the queries. *)
Fixpoint results_of (queries : list string) (maxResults : Z) (durations : list Z)
    (s : AdvancedMemoryManager) : list (list MemoryItem) :=
  match queries with
  | [] => []
  | query :: queries' =>
      let '(results, s) := searchMemories query maxResults (hd 0%Z durations) s in
      results :: results_of queries' maxResults (tl durations) s
  end.

Definition searchMemoriesBatch (queries : list string) (maxResults : Z)
    (durations : list Z) (s : AdvancedMemoryManager)
    : list MemoryItem * AdvancedMemoryManager :=
  let '(allResults, s) := search_all queries maxResults durations [] s in
  (std_unique (std_sort allResults), s).



Definition start (s : AdvancedMemoryManager) : AdvancedMemoryManager :=
  if running_ s then s
  else publish SYSTEM_STARTED (with_lifecycle true s).

Definition stop (s : AdvancedMemoryManager) : AdvancedMemoryManager :=
  if negb (running_ s) then s
  else publish SYSTEM_STOPPED (with_lifecycle false s).

(** The destructor: [stop()], then the members go; the destructor of the
    write-back engine is the one that touches the pending queue (here with
    its worker holding no batch). *)
Definition destroy (io : Async.Outcome) (s : AdvancedMemoryManager) : AdvancedMemoryManager :=
  let s := stop s in
  with_async (Async.destroy io (asyncManager_ s)) s.

(** [n] calls of [addMemory] in a row, the [k]-th with content [c k]. *)
Fixpoint addMany (c : nat -> string) (t : MemoryType) (cat : MemoryCategory)
    (now : Z) (n : nat) (s : AdvancedMemoryManager) : AdvancedMemoryManager :=
  match n with
  | O => s
  | S n' => addMemory (c n') t cat now (addMany c t cat now n' s)
  end.

(** A run of [searchMemories] calls, each query with its measured time. *)
Fixpoint search_run (calls : list (string * Z)) (maxResults : Z)
    (s : AdvancedMemoryManager) : AdvancedMemoryManager :=
  match calls with
  | [] => s
  | (query, duration) :: calls' =>
      search_run calls' maxResults (snd (searchMemories query maxResults duration s))
  end.


End WithCollaborators.

End Advanced.

(** ** Reference collaborators, to run the code on concrete inputs *)

Module Reference.

(** Modelled from the spec: the base store [MemoryManager] (its file
    [memory_manager.h] is not among the sources), "a synchronous in-memory
    collection of memory records plus a flush-to-disk operation" with a
    recency listing, an importance ranking bounded by [n] and a "related
    memories" lookup bounded by [n].  Here the collection is the list of the
    records, oldest first; the recency listing gives them newest first, the
    ranking gives the first [n], and a record is related to a query that
    occurs in its content. *)
Definition ListStore := list MemoryItem.

#[export] Instance ListStore_MemoryManager : MemoryManager ListStore := {
  base_addMemory c t cat now b := b ++ [mkItem c t cat (to_string now)];
  base_save b := b;
  base_getAllMemories b := b;
  base_getRecentMemories b := rev b;
  base_getTopMemories n b := firstn (Z.to_nat n) b;
  base_getRelatedMemories q n b :=
    firstn (Z.to_nat n) (filter (fun m => Str.found (content m) q) b)
}.

(** Modelled from the spec: the query cache [LRUCache] (its file
    [lru_cache.h] is not among the sources), a "fixed-capacity key→value
    cache keyed by exact query text" with [get] and [put], the eviction
    "assumed least-recently-used".  The entries are kept most recently used
    first. *)
Record ListCache := mkCache {
  capacity : Z;
  entries : list (string * MemoryItem)
}.

Definition remove_key (k : string) (l : list (string * MemoryItem)) :=
  filter (fun e => negb (String.eqb (fst e) k)) l.

#[export] Instance ListCache_LRUCache : LRUCache ListCache := {
  cache_create n := mkCache n [];
  cache_get k c :=
    match List.find (fun e => String.eqb (fst e) k) (entries c) with
    | Some (_, v) => (Some v, mkCache (capacity c) ((k, v) :: remove_key k (entries c)))
    | None => (None, c)
    end;
  cache_put k v c :=
    mkCache (capacity c)
            (firstn (Z.to_nat (capacity c)) ((k, v) :: remove_key k (entries c)))
}.

Definition empty_disk : Disk := mkDisk [] [] [].

(** A freshly constructed orchestrator over an empty store. *)
Definition fresh : @Advanced.AdvancedMemoryManager ListStore ListCache :=
  Advanced.create [] empty_disk.

(** The contents used in the runs below: ["m0"], ["m1"], ... *)
Definition numbered (k : nat) : string :=
  ("m" ++ NilEmpty.string_of_uint (Nat.to_uint k))%string.

(** The engine after 101 calls of [addMemory] with no turn of the worker. *)
Definition engine_101 : @Async.AsyncMemoryManager ListStore :=
  Async.addMany numbered Short Work 0 101 (Async.create [] empty_disk).

(** A running orchestrator after 101 calls of [addMemory] with no turn of
    the write-back worker in between, and the same after [stop()] and the
    destructor. *)
Definition system_101 : @Advanced.AdvancedMemoryManager ListStore ListCache :=
  Advanced.addMany numbered Short Work 0 101 (Advanced.start fresh).

Definition system_101_shut_down : @Advanced.AdvancedMemoryManager ListStore ListCache :=
  Advanced.destroy Async.success (Advanced.stop system_101).

(** A running orchestrator holding the two records ["m0"] and ["m1"]. *)
Definition system_2 : @Advanced.AdvancedMemoryManager ListStore ListCache :=
  Advanced.addMany numbered Short Work 0 2 (Advanced.start fresh).

(** A running orchestrator holding the record ["m0"], and the states after
    one and after two lookups of ["m0"], each measured at 5 ms. *)
Definition system_1 : @Advanced.AdvancedMemoryManager ListStore ListCache :=
  Advanced.addMemory "m0" Short Work 0 (Advanced.start fresh).

Definition searched_once : @Advanced.AdvancedMemoryManager ListStore ListCache :=
  snd (Advanced.searchMemories "m0" 10 5 system_1).




End Reference.

(** ** Runs of the write-back engine *)

Module AsyncRuns.

Definition MemoryType_eqb (a b : MemoryType) : bool :=
  match a, b with
  | Short, Short | Mid, Mid | Long, Long => true
  | _, _ => false
  end.

(** The lines of the items of type [t] of a sequence of items, in order:
    what [saveBatch] sends to the stream of that type. *)
Definition lines_of (t : MemoryType) (items : list MemoryItem) : list string :=
  map Async.line (filter (fun m => MemoryType_eqb (type m) t) items).

(** What a stream with that much room takes of the lines sent to it. *)
Definition taken (room : option nat) (lines : list string) : list string :=
  match room with
  | None => lines
  | Some n => firstn n lines
  end.

(** The outcomes under which everything sent to the destination of type
    [t] is written: its stream never fails and nothing is thrown. *)
Definition delivers (t : MemoryType) (io : Async.Outcome) : bool :=
  match Async.fails_after io t, Async.throws_at io with
  | None, None => true
  | _, _ => false
  end.

(** The room of the stream of type [t]. *)
Definition room (t : MemoryType) (f : Async.Streams) : option nat :=
  match t with
  | Short => Async.sfile f
  | Mid => Async.mfile f
  | Long => Async.lfile f
  end.

(** No destination can be opened. *)
Definition nothing_opens : Async.Outcome := Async.mkOutcome (fun _ => Some O) None.

Definition holds_nothing (held : list MemoryItem) : bool :=
  match held with
  | [] => true
  | _ :: _ => false
  end.

Section WithBase.

Context {B : Type} `{MemoryManager B}.

(** What is written or still to be written to the destination of type [t]:
    the file so far, then the lines of that type of the batch the worker
    holds, then those of the pending items. *)
Definition ledger (t : MemoryType) (l : @Async.Live B) : list string :=
  destination t (Async.disk (Async.engine l))
  ++ lines_of t (Async.batch l)
  ++ lines_of t (Async.pendingWrites (Async.engine l)).

(** The calls a live engine receives, and the two parts of the turns of
    its worker. *)
Inductive action :=
| AddMemory (c : string) (t : MemoryType) (cat : MemoryCategory) (now : Z)
| Save (io : Async.Outcome)
| FlushPendingWrites (io : Async.Outcome)
| WorkerTake
| WorkerWrite (io : Async.Outcome).

(** The worker takes a batch only when it holds none: it is then at the
    top of its loop. *)
Definition perform (l : @Async.Live B) (a : action) : @Async.Live B :=
  match a with
  | AddMemory c t cat now =>
      Async.mkLive (Async.addMemory c t cat now (Async.engine l)) (Async.batch l)
  | Save io => Async.mkLive (Async.save io (Async.engine l)) (Async.batch l)
  | FlushPendingWrites io =>
      Async.mkLive (Async.flushPendingWrites io (Async.engine l)) (Async.batch l)
  | WorkerTake =>
      match Async.batch l with
      | [] => Async.mkLive (snd (Async.saveWorker_take (Async.engine l)))
                           (fst (Async.saveWorker_take (Async.engine l)))
      | _ :: _ => l
      end
  | WorkerWrite io =>
      Async.mkLive (Async.saveWorker_write io (Async.batch l) (Async.engine l)) []
  end.

Definition run (actions : list action) (l : @Async.Live B) : @Async.Live B :=
  fold_left perform actions l.

(** The items a run puts on the queue, in the order of the calls. *)
Fixpoint added (actions : list action) : list MemoryItem :=
  match actions with
  | [] => []
  | AddMemory c t cat now :: actions' => mkItem c t cat (to_string now) :: added actions'
  | _ :: actions' => added actions'
  end.

(** The runs in which one thread at a time writes to the destination of
    type [t], and all that is sent to it is written: every [saveBatch]
    delivers to [t], and [save] and [flushPendingWrites] are not called
    while the worker holds a batch. *)
Fixpoint orderly (t : MemoryType) (actions : list action) (l : @Async.Live B) : bool :=
  match actions with
  | [] => true
  | a :: actions' =>
      match a with
      | Save io | FlushPendingWrites io =>
          delivers t io && holds_nothing (Async.batch l)
      | WorkerWrite io => delivers t io
      | _ => true
      end && orderly t actions' (perform l a)
  end.

End WithBase.

End AsyncRuns.

(** ** The rest of the orchestrator: configuration, maintenance, runs *)

Module AdvancedRuns.

Section WithCollaborators.

Context {B : Type} `{MemoryManager B} {C : Type} `{LRUCache C}.

Local Abbreviation state := (@Advanced.AdvancedMemoryManager B C).

Definition setSearchThreshold (threshold : float) (s : state) : state :=
  Advanced.mk (Advanced.asyncManager_ s) (Advanced.semanticSearch_ s)
    (Advanced.weightManager_ s) (Advanced.eventManager_ s) (Advanced.eventBus s)
    (Advanced.memoryCache_ s) threshold (Advanced.running_ s)
    (Advanced.backgroundThread_ s) (Advanced.totalSearches_ s)
    (Advanced.totalSearchTime_ s) (Advanced.cacheHits_ s) (Advanced.cacheMisses_ s).

(** [setCacheSize]: the cache is replaced by a new one of the given size
    ([cacheSize_], which it also sets, is read nowhere afterwards). *)
Definition setCacheSize (size : Z) (s : state) : state :=
  Advanced.with_cache (cache_create size) s.

(** One turn of the loop of [backgroundWorker], entered while [running_]:
    the cleanup, then [updateWeights] over the store when it is not empty
    (then the thread sleeps).  [now] is the clock reading. *)
Definition backgroundWorker_turn (now : Z) (s : state) : state :=
  if Advanced.running_ s then
    let s := Advanced.cleanupExpiredMemories s in
    let memories := base_getAllMemories (Async.base (Advanced.asyncManager_ s)) in
    match memories with
    | [] => s
    | _ :: _ => Advanced.weight_call (updateWeights memories (to_string now)) s
    end
  else s.

(** The public calls, the two parts of the turns of the write-back worker
    and the turns of the maintenance loop. *)
Inductive call :=
| AddMemory (c : string) (t : MemoryType) (cat : MemoryCategory) (now : Z)
| SearchMemories (query : string) (maxResults : Z) (duration : Z)
| UpdateMemoryWeight (c : string) (weight : float)
| RecordMemoryAccess (c : string) (now : Z)
| CleanupExpiredMemories
| AddMemoriesBatch (memories : list (string * MemoryType)) (now : Z)
| SetSearchThreshold (threshold : float)
| SetCacheSize (size : Z)
| Start
| Stop
| WriteBackTake
| WriteBackWrite (io : Async.Outcome)
| MaintenanceTurn (now : Z).

(** A live orchestrator: the object, and the batch the write-back worker
    holds between the two parts of its turn. *)
Record Live := mkLive {
  system : state;
  held : list MemoryItem
}.

Definition perform (l : Live) (c : call) : Live :=
  let s := system l in
  match c with
  | AddMemory c t cat now => mkLive (Advanced.addMemory c t cat now s) (held l)
  | SearchMemories query maxResults duration =>
      mkLive (snd (Advanced.searchMemories query maxResults duration s)) (held l)
  | UpdateMemoryWeight c weight => mkLive (Advanced.updateMemoryWeight c weight s) (held l)
  | RecordMemoryAccess c now => mkLive (Advanced.recordMemoryAccess c now s) (held l)
  | CleanupExpiredMemories => mkLive (Advanced.cleanupExpiredMemories s) (held l)
  | AddMemoriesBatch memories now =>
      mkLive (Advanced.addMemoriesBatch memories now s) (held l)
  | SetSearchThreshold threshold => mkLive (setSearchThreshold threshold s) (held l)
  | SetCacheSize size => mkLive (setCacheSize size s) (held l)
  | Start => mkLive (Advanced.start s) (held l)
  | Stop => mkLive (Advanced.stop s) (held l)
  | WriteBackTake =>
      match held l with
      | [] =>
          mkLive
            (Advanced.with_async
               (snd (Async.saveWorker_take (Advanced.asyncManager_ s))) s)
            (fst (Async.saveWorker_take (Advanced.asyncManager_ s)))
      | _ :: _ => l
      end
  | WriteBackWrite io =>
      mkLive
        (Advanced.with_async
           (Async.saveWorker_write io (held l) (Advanced.asyncManager_ s)) s)
        []
  | MaintenanceTurn now => mkLive (backgroundWorker_turn now s) (held l)
  end.

Definition run_live (calls : list call) (l : Live) : Live := fold_left perform calls l.

(** The object after a run that starts with the worker holding no batch. *)
Definition run (calls : list call) (s : state) : state :=
  system (run_live calls (mkLive s [])).

(** What holds of the orchestrator after its constructor and is kept by
    every call: the event manager and the maintenance thread run exactly
    when the system is running; no semantic search engine is set; every
    counted search is a cache miss; the counters are [size_t] values; the
    write-back worker has not been told to stop. *)
Definition consistent (s : state) : Prop :=
  Advanced.eventManager_ s = Advanced.running_ s /\
  Advanced.backgroundThread_ s = Advanced.running_ s /\
  Advanced.semanticSearch_ s = None /\
  Advanced.totalSearches_ s = Advanced.cacheMisses_ s /\
  (0 <= Advanced.cacheHits_ s < SIZE_MOD)%Z /\
  (0 <= Advanced.cacheMisses_ s < SIZE_MOD)%Z /\
  Async.shouldStop (Advanced.asyncManager_ s) = false /\
  Async.saveThread (Advanced.asyncManager_ s) = true.

(** The items [addMemoriesBatch] makes of its pairs: the category is the
    classifier's. *)
Definition classified (memories : list (string * MemoryType)) (now : Z) : list MemoryItem :=
  map (fun m => mkItem (fst m) (snd m) (classifyMemory (fst m)) (to_string now)) memories.

(** The lookups of a batch as single calls: the [k]-th query with the
    [k]-th measured time, 0 when the list of times is shorter. *)
Fixpoint lookups (queries : list string) (durations : list Z) : list (string * Z) :=
  match queries with
  | [] => []
  | query :: queries' => (query, hd 0%Z durations) :: lookups queries' (tl durations)
  end.

End WithCollaborators.

End AdvancedRuns.

(** * Properties *)

(** Case analysis on the condition of the first conditional of the goal. *)
Ltac case_if :=
  match goal with
  | |- context [if ?b then _ else _] => destruct b eqn:?
  end.

Lemma MemoryCategory_eqb_eq a b : MemoryCategory_eqb a b = true <-> a = b.
Proof. destruct a, b; simpl; split; intro H; try reflexivity; discriminate H. Qed.

(** ** Facts on strings *)

Module StrFacts.

Import Str.
Local Open Scope string_scope.

Lemma prefix_app pat s : prefix pat s = true <-> exists post, s = pat ++ post.
Proof.
  revert s; induction pat as [|c pat IH]; intros s.
  - split; [intros _; exists s; reflexivity | intros _; destruct s; reflexivity].
  - destruct s as [|d s]; simpl.
    + split; [discriminate | intros [post H]; discriminate H].
    + destruct (ascii_dec c d) as [Heq|Hn].
      * subst d. rewrite IH. split; intros [post H]; exists post.
        -- now rewrite H.
        -- now inversion H.
      * split; [discriminate | intros [post H]; inversion H; congruence].
Qed.

Lemma find_unfold s pat :
  find s pat =
  if prefix pat s then Some 0%nat
  else match s with
       | EmptyString => None
       | String _ s' => option_map S (find s' pat)
       end.
Proof. destruct s; reflexivity. Qed.

Lemma find_some_occurs s pat : found s pat = true <-> occurs_in pat s.
Proof.
  unfold found, occurs_in.
  induction s as [|c s IH]; rewrite find_unfold;
    destruct (prefix pat _) eqn:Hp.
  - split; [intros _ | reflexivity].
    apply prefix_app in Hp. destruct Hp as [post Hp]. now exists "", post.
  - split; [discriminate|]. intros [pre [post H]].
    destruct pre; simpl in H; [|discriminate].
    assert (prefix pat "" = true) by (apply prefix_app; eauto).
    congruence.
  - split; [intros _ | reflexivity].
    apply prefix_app in Hp. destruct Hp as [post Hp]. now exists "", post.
  - destruct (find s pat) as [i|]; simpl.
    + split; [intros _ | reflexivity].
      destruct IH as [IH _]. destruct (IH eq_refl) as [pre [post H]].
      exists (String c pre), post. simpl. now rewrite H.
    + split; [discriminate|]. intros [pre [post H]].
      destruct pre as [|d pre]; simpl in H.
      * assert (prefix pat (String c s) = true) by (apply prefix_app; eauto).
        congruence.
      * inversion H; subst. destruct IH as [_ IH].
        assert (false = true) by (apply IH; eauto). discriminate.
Qed.

Lemma transform_tolower_app a b :
  transform_tolower (a ++ b) = transform_tolower a ++ transform_tolower b.
Proof. induction a as [|c a IH]; simpl; [reflexivity | now rewrite IH]. Qed.

End StrFacts.

(** ** The classifier *)

Lemma matches_existsb c text :
  existsb (Str.found text) (keywords c) = true <-> matches c text.
Proof.
  unfold matches. rewrite existsb_exists.
  split; intros [k [Hin Hk]]; exists k; split; trivial;
    now apply StrFacts.find_some_occurs.
Qed.

Lemma matches_two c text k1 k2 :
  keywords c = [k1; k2] ->
  (Str.found text k1 || Str.found text k2 = true <-> matches c text).
Proof.
  intros Hk. rewrite <- matches_existsb, Hk. simpl.
  now rewrite orb_false_r.
Qed.

Lemma first_match_functional text cs r1 r2 :
  first_match text cs r1 -> first_match text cs r2 -> r1 = r2.
Proof.
  intros H1; revert r2; induction H1; intros r2 H2; inversion H2; subst;
    try reflexivity; try contradiction; auto.
Qed.

Lemma classifyMemory_first_match text :
  first_match (Str.transform_tolower text) classify_order (classifyMemory text).
Proof.
  unfold classifyMemory, classify_order.
  set (l := Str.transform_tolower text).
  pose proof (matches_two Work l _ _ eq_refl) as HW.
  pose proof (matches_two Family l _ _ eq_refl) as HF.
  pose proof (matches_two Friendship l _ _ eq_refl) as HR.
  pose proof (matches_two Happiness l _ _ eq_refl) as HH.
  destruct (Str.found l "工作" || Str.found l "项目").
  { apply fm_here, HW; reflexivity. }
  apply fm_later; [intros C; apply HW in C; discriminate|].
  destruct (Str.found l "家庭" || Str.found l "父母").
  { apply fm_here, HF; reflexivity. }
  apply fm_later; [intros C; apply HF in C; discriminate|].
  destruct (Str.found l "朋友" || Str.found l "聚会").
  { apply fm_here, HR; reflexivity. }
  apply fm_later; [intros C; apply HR in C; discriminate|].
  destruct (Str.found l "开心" || Str.found l "高兴").
  { apply fm_here, HH; reflexivity. }
  apply fm_later; [intros C; apply HH in C; discriminate|].
  apply fm_none.
Qed.

Lemma classifyMemory_classify_spec text : classifyMemory text = classify_spec text.
Proof.
  unfold classifyMemory, classify_spec, classify_order; simpl.
  set (l := Str.transform_tolower text).
  repeat rewrite orb_false_r.
  repeat match goal with
         | |- context [if ?b then _ else _] => destruct b; try reflexivity
         end.
Qed.

(** No keyword contains an upper-case ASCII letter, so lower-casing a text
    keeps every keyword occurrence of the text. *)
Lemma keyword_lower c k :
  In k (keywords c) -> Str.transform_tolower k = k.
Proof.
  destruct c; simpl; intros H;
    repeat (destruct H as [H|H]; [subst k; vm_compute; reflexivity|]);
    contradiction.
Qed.

Lemma matches_lower c text :
  matches c text -> matches c (Str.transform_tolower text).
Proof.
  intros [k [Hin [pre [post ->]]]]. exists k; split; trivial.
  exists (Str.transform_tolower pre), (Str.transform_tolower post).
  now rewrite !StrFacts.transform_tolower_app, (keyword_lower c k Hin).
Qed.

Lemma classifyMemory_Other_iff text :
  classifyMemory text = Other <->
  forall c, ~ matches c (Str.transform_tolower text).
Proof.
  pose proof (classifyMemory_first_match text) as H.
  unfold classify_order in H. split.
  - intros E. rewrite E in H.
    repeat match goal with
           | H : first_match _ (_ :: _) Other |- _ => inversion H; clear H; subst
           end.
    intros [] ; trivial. intros [k [[] _]].
  - intros Hno.
    repeat match goal with
           | H : first_match _ (?c :: _) _ |- _ =>
               inversion H; clear H; subst; [exfalso; eapply Hno; eassumption|]
           end.
    match goal with
    | H : first_match _ [] _ |- _ => now inversion H
    end.
Qed.


(** ** The write-back engine *)

Module AsyncFacts.

Import Async.

Lemma drain_firstn_skipn (pending batch : list MemoryItem) :
  drain pending batch =
  (batch ++ firstn (BATCH_SIZE - length batch) pending,
   skipn (BATCH_SIZE - length batch) pending).
Proof.
  revert batch; induction pending as [|x pending IH]; intros batch; cbn [drain].
  - now rewrite firstn_nil, skipn_nil, app_nil_r.
  - destruct (Nat.ltb_spec (length batch) BATCH_SIZE) as [Hlt|Hge].
    + rewrite IH, length_app; cbn [length].
      replace (BATCH_SIZE - length batch)%nat
        with (S (BATCH_SIZE - (length batch + 1)))%nat by lia.
      rewrite firstn_cons, skipn_cons, <- app_assoc. reflexivity.
    + replace (BATCH_SIZE - length batch)%nat with O by lia.
      rewrite firstn_O, skipn_O, app_nil_r. reflexivity.
Qed.

Lemma drain_all (pending : list MemoryItem) :
  drain pending [] = (firstn BATCH_SIZE pending, skipn BATCH_SIZE pending).
Proof.
  rewrite drain_firstn_skipn. cbn [length app]. now rewrite Nat.sub_0_r.
Qed.

Section WithBase.

Context {B : Type} `{MemoryManager B}.

Lemma addMemory_pending c t cat now (s : @AsyncMemoryManager B) :
  pendingWrites (addMemory c t cat now s) =
  pendingWrites s ++ [mkItem c t cat (to_string now)].
Proof.
  unfold addMemory, asyncSave. case_if; reflexivity.
Qed.

Lemma addMany_length c t cat now n (s : @AsyncMemoryManager B) :
  length (pendingWrites (addMany c t cat now n s)) = (length (pendingWrites s) + n)%nat.
Proof.
  induction n as [|n IH]; simpl; [lia|].
  rewrite addMemory_pending, length_app, IH; simpl; lia.
Qed.

Lemma addMany_live b d c t cat now n :
  live b d (mkLive (addMany c t cat now n (create b d)) []).
Proof.
  induction n as [|n IH]; simpl.
  - constructor.
  - eapply live_step; [exact IH|].
    apply (step_addMemory (c n) t cat now
             (mkLive (addMany c t cat now n (create b d)) [])).
Qed.

Lemma addMany_reachable b d c t cat now n :
  reachable b d (addMany c t cat now n (create b d)).
Proof. exists []. apply addMany_live. Qed.

Lemma getPendingBatch_eq (s : @AsyncMemoryManager B) :
  getPendingBatch s
  = (firstn BATCH_SIZE (pendingWrites s),
     with_pending (skipn BATCH_SIZE (pendingWrites s)) (disk s) s).
Proof. unfold getPendingBatch. now rewrite drain_all. Qed.

Lemma flushPendingWrites_pending io (s : @AsyncMemoryManager B) :
  pendingWrites (flushPendingWrites io s) = skipn BATCH_SIZE (pendingWrites s).
Proof.
  unfold flushPendingWrites.
  destruct (pendingWrites s) as [|x q] eqn:Hq; [now rewrite skipn_nil|].
  rewrite drain_all. now destruct (firstn BATCH_SIZE (x :: q)).
Qed.

(** Nothing is given to [saveBatch] when the batch is empty; for the files
    this is as if the empty batch were saved without any failure. *)
Lemma saveBatch_nil io (d : Disk) : saveBatch io [] d = d.
Proof. unfold saveBatch, attempted. destruct (throws_at io) as [[|k]|]; reflexivity. Qed.

Lemma flushPendingWrites_disk io (s : @AsyncMemoryManager B) :
  disk (flushPendingWrites io s)
  = saveBatch io (firstn BATCH_SIZE (pendingWrites s)) (disk s).
Proof.
  unfold flushPendingWrites.
  destruct (pendingWrites s) as [|x q] eqn:Hq.
  - rewrite firstn_nil. now rewrite saveBatch_nil.
  - rewrite drain_all.
    destruct (firstn BATCH_SIZE (x :: q)); [now rewrite saveBatch_nil | reflexivity].
Qed.

Lemma flushPendingWrites_base io (s : @AsyncMemoryManager B) :
  base (flushPendingWrites io s) = base s.
Proof.
  unfold flushPendingWrites.
  destruct (pendingWrites s) as [|x q]; trivial.
  destruct (drain (x :: q) []) as [[|y batch] rest]; reflexivity.
Qed.

Lemma save_pending io (s : @AsyncMemoryManager B) :
  pendingWrites (save io s) = skipn BATCH_SIZE (pendingWrites s).
Proof. unfold save; simpl. apply flushPendingWrites_pending. Qed.

Lemma destroy_pending io (s : @AsyncMemoryManager B) :
  pendingWrites (destroy io s) = skipn BATCH_SIZE (pendingWrites s).
Proof. unfold destroy. now rewrite flushPendingWrites_pending. Qed.

Lemma saveWorker_write_pending io held (s : @AsyncMemoryManager B) :
  pendingWrites (saveWorker_write io held s) = pendingWrites s.
Proof. destruct held; reflexivity. Qed.

Lemma saveWorker_write_disk io held (s : @AsyncMemoryManager B) :
  disk (saveWorker_write io held s) = saveBatch io held (disk s).
Proof. destruct held; [now rewrite saveBatch_nil | reflexivity]. Qed.

Lemma saveWorker_write_flags io held (s : @AsyncMemoryManager B) :
  shouldStop (saveWorker_write io held s) = shouldStop s /\
  saveThread (saveWorker_write io held s) = saveThread s /\
  base (saveWorker_write io held s) = base s.
Proof. destruct held; repeat split. Qed.

Lemma saveWorker_take_stopped (s : @AsyncMemoryManager B) :
  shouldStop s = true -> saveWorker_take s = ([], s).
Proof. intros Hs. unfold saveWorker_take. now rewrite Hs. Qed.

Lemma saveWorker_take_running (s : @AsyncMemoryManager B) :
  shouldStop s = false ->
  saveWorker_take s
  = (firstn BATCH_SIZE (pendingWrites s),
     with_pending (skipn BATCH_SIZE (pendingWrites s)) (disk s) s).
Proof. intros Hs. unfold saveWorker_take. rewrite Hs. apply getPendingBatch_eq. Qed.

Lemma saveWorker_take_flags (s : @AsyncMemoryManager B) :
  shouldStop (snd (saveWorker_take s)) = shouldStop s /\
  saveThread (snd (saveWorker_take s)) = saveThread s /\
  disk (snd (saveWorker_take s)) = disk s /\
  base (snd (saveWorker_take s)) = base s.
Proof.
  destruct (shouldStop s) eqn:Hs.
  - rewrite saveWorker_take_stopped by exact Hs. simpl. now rewrite Hs.
  - rewrite saveWorker_take_running by exact Hs. simpl. now rewrite Hs.
Qed.

Lemma saveWorker_turn_eq io (s : @AsyncMemoryManager B) :
  saveWorker_turn io s
  = saveWorker_write io (fst (saveWorker_take s)) (snd (saveWorker_take s)).
Proof. unfold saveWorker_turn. now destruct (saveWorker_take s). Qed.

Lemma saveWorker_turn_pending io (s : @AsyncMemoryManager B) :
  shouldStop s = false ->
  pendingWrites (saveWorker_turn io s) = skipn BATCH_SIZE (pendingWrites s).
Proof.
  intros Hs. rewrite saveWorker_turn_eq, saveWorker_write_pending.
  now rewrite saveWorker_take_running.
Qed.

End WithBase.

End AsyncFacts.

(** ** Order on contents, [std::unique] and the contract of [std::sort] *)

Module SortFacts.

Lemma ltb_lt (a b : string) : String.ltb a b = true <-> String_as_OT.lt a b.
Proof.
  rewrite <- String_as_OT.cmp_lt. unfold String.ltb, String_as_OT.cmp.
  destruct (String.compare a b); split; intros E; try reflexivity; discriminate E.
Qed.

Lemma ltb_irrefl (a : string) : String.ltb a a = false.
Proof.
  destruct (String.ltb a a) eqn:E; trivial.
  apply ltb_lt in E. exfalso. now apply (String_as_OT.lt_not_eq a a E).
Qed.

Lemma ltb_trans (a b c : string) :
  String.ltb a b = true -> String.ltb b c = true -> String.ltb a c = true.
Proof. rewrite !ltb_lt. apply String_as_OT.lt_trans. Qed.

(** Two contents of which the second is not below the first are equal or
    in order. *)
Lemma ltb_total (a b : string) :
  String.ltb b a = false -> a <> b -> String.ltb a b = true.
Proof.
  unfold String.ltb. rewrite (String.compare_antisym b a).
  destruct (String.compare a b) eqn:E; simpl; intros Hba Hne;
    try reflexivity; try discriminate Hba.
  apply String.compare_eq_iff in E. contradiction.
Qed.

Lemma ltb_not_below (a b : string) :
  String.ltb a b = true -> String.ltb b a = false.
Proof.
  intros Hab. destruct (String.ltb b a) eqn:Hba; trivial.
  pose proof (ltb_trans _ _ _ Hab Hba) as C. now rewrite ltb_irrefl in C.
Qed.

Lemma unique_after_In kept l x : In x (unique_after kept l) -> In x l.
Proof.
  revert kept; induction l as [|y l IH]; intros kept; simpl; [tauto|].
  destruct (content_eq kept y).
  - intros Hx. right. now apply (IH kept).
  - intros [->|Hx]; [now left | right; now apply (IH y)].
Qed.

Lemma std_unique_In l x : In x (std_unique l) -> In x l.
Proof.
  destruct l as [|y l]; simpl; [tauto|].
  intros [->|Hx]; [now left | right; now apply (unique_after_In y)].
Qed.

Lemma unique_after_covers kept l x :
  In x l ->
  content x = content kept \/
  exists y, In y (unique_after kept l) /\ content y = content x.
Proof.
  revert kept; induction l as [|z l IH]; intros kept; simpl; [tauto|].
  unfold content_eq. destruct (String.eqb_spec (content kept) (content z)) as [E|E].
  - intros [->|Hx]; [now left | now apply IH].
  - intros [->|Hx].
    + right. exists x. split; [now left | reflexivity].
    + destruct (IH z Hx) as [Hz | [y [Hy Hc]]].
      * right. exists z. split; [now left | now symmetry].
      * right. exists y. split; [now right | assumption].
Qed.

Lemma std_unique_covers l x :
  In x l -> exists y, In y (std_unique l) /\ content y = content x.
Proof.
  destruct l as [|z l]; simpl; [tauto|].
  intros [->|Hx].
  - exists x. split; [now left | reflexivity].
  - destruct (unique_after_covers z l x Hx) as [Hz | [y [Hy Hc]]].
    + exists z. split; [now left | now symmetry].
    + exists y. split; [now right | assumption].
Qed.

(** After a kept element [kept], what [std::unique] keeps of a sorted
    range is strictly increasing and starts above [kept]. *)
Lemma unique_after_sorted kept l :
  Sorted not_below (kept :: l) ->
  Sorted below (unique_after kept l) /\ HdRel below kept (unique_after kept l).
Proof.
  revert kept; induction l as [|x l IH]; intros kept Hs; simpl.
  - split; constructor.
  - apply Sorted_inv in Hs. destruct Hs as [Hs Hhd].
    apply HdRel_inv in Hhd. unfold not_below, content_lt in Hhd.
    unfold content_eq.
    destruct (String.eqb_spec (content kept) (content x)) as [E|E].
    + apply IH. apply Sorted_inv in Hs. destruct Hs as [Hs Hx].
      constructor; trivial.
      destruct l as [|z l]; constructor.
      apply HdRel_inv in Hx. unfold not_below, content_lt in *. now rewrite E.
    + destruct (IH x Hs) as [Hu Hh]. split.
      * now constructor.
      * constructor. now apply ltb_total.
Qed.

Lemma std_unique_sorted l : Sorted not_below l -> Sorted below (std_unique l).
Proof.
  destruct l as [|x l]; simpl; intros Hs; [constructor|].
  destruct (unique_after_sorted x l Hs). now constructor.
Qed.

Lemma below_trans : Relations_1.Transitive below.
Proof. intros a b c. unfold below, content_lt. apply ltb_trans. Qed.

Lemma below_NoDup l : StronglySorted below l -> NoDup (map content l).
Proof.
  induction 1 as [|a l Hs IH Hall]; simpl; constructor; trivial.
  intros Hin. apply in_map_iff in Hin. destruct Hin as [y [Hc Hy]].
  rewrite Forall_forall in Hall. specialize (Hall y Hy).
  unfold below, content_lt in Hall. rewrite Hc, ltb_irrefl in Hall. discriminate.
Qed.

(** The sort by insertion meets the contract of [std::sort]. *)
Lemma insert_by_content_perm x l : Permutation (insert_by_content x l) (x :: l).
Proof.
  induction l as [|y l IH]; simpl; [reflexivity|].
  destruct (content_lt y x); [|reflexivity].
  rewrite IH. apply perm_swap.
Qed.

Lemma insertion_sort_perm l : Permutation (insertion_sort l) l.
Proof.
  induction l as [|x l IH]; simpl; [constructor|].
  rewrite insert_by_content_perm. now constructor.
Qed.

Lemma insert_by_content_sorted x l :
  Sorted not_below l -> Sorted not_below (insert_by_content x l).
Proof.
  induction 1 as [|y l Hs IH Hhd]; simpl.
  - repeat constructor.
  - destruct (content_lt y x) eqn:E.
    + constructor; trivial.
      destruct l as [|z l]; simpl in *.
      * constructor. unfold not_below. unfold content_lt in *.
        now apply ltb_not_below.
      * destruct (content_lt z x) eqn:E'; constructor.
        -- now apply HdRel_inv in Hhd.
        -- unfold not_below. unfold content_lt in *. now apply ltb_not_below.
    + constructor; [now constructor|]. constructor. exact E.
Qed.

Lemma insertion_sort_sorted l : Sorted not_below (insertion_sort l).
Proof.
  induction l as [|x l IH]; simpl; [constructor|].
  now apply insert_by_content_sorted.
Qed.

End SortFacts.

(** ** The orchestrator *)

Module AdvancedFacts.

Import Advanced.



Lemma wrap_range (x : Z) : (0 <= wrap x < SIZE_MOD)%Z.
Proof. unfold wrap. apply Z.mod_pos_bound. reflexivity. Qed.

Section WithCollaborators.

Context {B : Type} `{MemoryManager B} {C : Type} `{LRUCache C}.

Local Abbreviation state := (@AdvancedMemoryManager B C).

Lemma addMemory_stopped c t cat now (s : state) :
  running_ s = false -> addMemory c t cat now s = s.
Proof. intros Hs. unfold addMemory. now rewrite Hs. Qed.

Lemma addMemoriesBatch_stopped memories now (s : state) :
  running_ s = false -> addMemoriesBatch memories now s = s.
Proof.
  intros Hs. unfold addMemoriesBatch.
  induction memories as [|m memories IH]; simpl; trivial.
  now rewrite addMemory_stopped.
Qed.

Lemma addMemory_running c t cat now (s : state) :
  running_ s = true ->
  addMemory c t cat now s =
  let cat' := if MemoryCategory_eqb cat Other then classifyMemory c else cat in
  publish (MEMORY_ADDED (mkItem c t cat' (to_string now)))
    (weight_call (recordAccess c (to_string now))
       (with_async (Async.addMemory c t cat' now (asyncManager_ s)) s)).
Proof. intros Hs. unfold addMemory. now rewrite Hs. Qed.

(** What one lookup does to the counters, by the answer of the cache. *)
Lemma searchMemories_hit query maxResults duration (s : state) item :
  fst (cache_get query (memoryCache_ s)) = Some item ->
  fst (searchMemories query maxResults duration s) = [item] /\
  totalSearches_ (snd (searchMemories query maxResults duration s)) = totalSearches_ s /\
  totalSearchTime_ (snd (searchMemories query maxResults duration s)) = totalSearchTime_ s /\
  cacheHits_ (snd (searchMemories query maxResults duration s)) = wrap (cacheHits_ s + 1) /\
  cacheMisses_ (snd (searchMemories query maxResults duration s)) = cacheMisses_ s.
Proof.
  unfold searchMemories.
  destruct (cache_get query (memoryCache_ s)) as [cached cache]; simpl.
  intros ->. simpl. repeat split.
Qed.

Lemma searchMemories_miss query maxResults duration (s : state) :
  fst (cache_get query (memoryCache_ s)) = None ->
  totalSearches_ (snd (searchMemories query maxResults duration s))
    = wrap (totalSearches_ s + 1) /\
  totalSearchTime_ (snd (searchMemories query maxResults duration s))
    = fadd (totalSearchTime_ s) (float_of_Z duration) /\
  cacheHits_ (snd (searchMemories query maxResults duration s)) = cacheHits_ s /\
  cacheMisses_ (snd (searchMemories query maxResults duration s))
    = wrap (cacheMisses_ s + 1).
Proof.
  unfold searchMemories.
  destruct (cache_get query (memoryCache_ s)) as [cached cache]; simpl.
  intros ->. simpl.
  repeat match goal with
         | |- context [match ?x with _ => _ end] => destruct x; simpl
         end; repeat split.
Qed.




(** The loop of the batch search concatenates the per-query results. *)
Lemma search_all_concat queries maxResults durations acc (s : state) :
  fst (search_all queries maxResults durations acc s) =
  acc ++ concat (results_of queries maxResults durations s).
Proof.
  revert durations acc s; induction queries as [|query queries IH];
    intros durations acc s; simpl.
  - now rewrite app_nil_r.
  - destruct (searchMemories query maxResults (hd 0%Z durations) s) as [results s'].
    rewrite IH. simpl. now rewrite app_assoc.
Qed.

Lemma getRecentMemories_count_unused count count' (s : state) :
  getRecentMemories count s = getRecentMemories count' s.
Proof. reflexivity. Qed.

End WithCollaborators.

End AdvancedFacts.

(** * The claims *)

Import Reference.

(** ** C1: what [save()] leaves in the pending queue *)

(** The pending queue after [save()] is the queue without its first
    [BATCH_SIZE] items, whatever becomes of the write; the base store's own
    save has been applied. *)
Lemma save_drains_one_batch {B : Type} `{MemoryManager B}
    (io : Async.Outcome) (s : @Async.AsyncMemoryManager B) :
  Async.pendingWrites (Async.save io s)
    = skipn Async.BATCH_SIZE (Async.pendingWrites s) /\
  Async.disk (Async.save io s)
    = Async.saveBatch io (firstn Async.BATCH_SIZE (Async.pendingWrites s)) (Async.disk s) /\
  Async.base (Async.save io s) = base_save (Async.base s).
Proof.
  split; [apply AsyncFacts.save_pending|]. split.
  - unfold Async.save; simpl. apply AsyncFacts.flushPendingWrites_disk.
  - unfold Async.save; simpl. now rewrite AsyncFacts.flushPendingWrites_base.
Qed.

(** C1.  With 101 items pending, [save()] returns with the 101st still in
    the pending queue, whatever becomes of the write; when every write
    succeeds the first 100 are persisted and the 101st is not, although the
    claim (and the comment of [save()] in the source) has every pending item
    persisted and the queue empty. *)
Theorem save_leaves_the_101st_item_pending :
  length (Async.pendingWrites engine_101) = 101%nat /\
  (forall io, Async.pendingWrites (Async.save io engine_101)
              = [mkItem "m100" Short Work "0"]) /\
  length (SHORT_PATH (Async.disk (Async.save Async.success engine_101))) = 100%nat /\
  ~ In (Async.line (mkItem "m100" Short Work "0"))
       (SHORT_PATH (Async.disk (Async.save Async.success engine_101))).
Proof.
  split; [vm_compute; reflexivity|].
  split; [intros io; rewrite AsyncFacts.save_pending; vm_compute; reflexivity|].
  split; [vm_compute; reflexivity|].
  intros Hin.
  assert (E : existsb (String.eqb (Async.line (mkItem "m100" Short Work "0")))
                (SHORT_PATH (Async.disk (Async.save Async.success engine_101))) = false)
    by (vm_compute; reflexivity).
  rewrite <- Bool.not_true_iff_false in E. apply E.
  apply existsb_exists. eexists; split; [exact Hin | apply String.eqb_refl].
Qed.

(** ** C2: a clean shutdown after 101 adds *)

(** C2.  After 101 adds and an orderly shutdown in which every write
    succeeds, the Short destination holds 100 lines; the line of the 101st
    item is not among them and the item is still in the pending queue of the
    destroyed engine: it is lost. *)
Theorem shutdown_drops_the_101st_item :
  Advanced.running_ system_101 = true /\
  length (Async.pendingWrites (Advanced.asyncManager_ system_101)) = 101%nat /\
  Advanced.running_ system_101_shut_down = false /\
  Async.pendingWrites (Advanced.asyncManager_ system_101_shut_down)
    = [mkItem "m100" Short Work "0"] /\
  length (destination Short (Async.disk (Advanced.asyncManager_ system_101_shut_down)))
    = 100%nat /\
  existsb (String.eqb (Async.line (mkItem "m100" Short Work "0")))
          (destination Short (Async.disk (Advanced.asyncManager_ system_101_shut_down)))
    = false.
Proof. repeat split; vm_compute; reflexivity. Qed.

(** ** C3: the mutating calls on a stopped system *)

(** C3.  On the freshly constructed orchestrator, which is not running,
    [addMemory] and [addMemoriesBatch] change nothing, but
    [updateMemoryWeight] reaches the weight manager and publishes its event,
    and [cleanupExpiredMemories] and [recordMemoryAccess] reach the weight
    manager: these three do not look at [running_]. *)
Theorem stopped_system_still_updates_weights :
  Advanced.running_ fresh = false /\
  Advanced.addMemory "m0" Short Work 0 fresh = fresh /\
  Advanced.addMemoriesBatch [("m0", Short)] 0 fresh = fresh /\
  Advanced.weightManager_ (Advanced.updateMemoryWeight "m0" (float_of_Z 1) fresh)
    = [updateMemoryWeight_ "m0" (float_of_Z 1)] /\
  Advanced.eventBus (Advanced.updateMemoryWeight "m0" (float_of_Z 1) fresh)
    = [WEIGHT_UPDATED "m0" (float_of_Z 1)] /\
  Advanced.weightManager_ (Advanced.cleanupExpiredMemories fresh) = [cleanupExpiredData] /\
  Advanced.weightManager_ (Advanced.recordMemoryAccess "m0" 0 fresh)
    = [recordAccess "m0" "0"].
Proof. repeat split. Qed.

(** ** C4: which lookups are counted *)




(** ** C5: the length of the pending queue *)

(** Counterexample to C5.  No bound holds for the pending queue of the
    engines reachable from an empty one: [bound + 1] calls of [addMemory] in a row exceed [bound]. *)
Lemma pending_queue_has_no_bound :
  ~ exists bound : nat,
      forall s : @Async.AsyncMemoryManager ListStore,
        Async.reachable [] empty_disk s ->
        (length (Async.pendingWrites s) <= bound)%nat.
Proof.
  intros [bound Hb].
  specialize (Hb (Async.addMany numbered Short Work 0 (S bound)
                    (Async.create [] empty_disk))
                 (AsyncFacts.addMany_reachable _ _ _ _ _ _ _)).
  rewrite AsyncFacts.addMany_length in Hb. simpl in Hb. lia.
Qed.

(** C5, as the code has it.  [addMemory] always appends to the pending
    queue, whatever its length (at [BATCH_SIZE] it only signals the worker);
    a turn of the worker removes the first [BATCH_SIZE] items, in its first
    part and whatever becomes of the write; and for every bound an engine
    with more pending items than the bound is reachable. *)
Theorem pending_queue_grows_with_every_add
    {B : Type} `{MemoryManager B} (b : B) (d : Disk) :
  (forall c t cat now (s : @Async.AsyncMemoryManager B),
      length (Async.pendingWrites (Async.addMemory c t cat now s))
      = S (length (Async.pendingWrites s))) /\
  (forall io (s : @Async.AsyncMemoryManager B),
      length (Async.pendingWrites (Async.saveWorker_turn io s))
      = if Async.shouldStop s then length (Async.pendingWrites s)
        else (length (Async.pendingWrites s) - Async.BATCH_SIZE)%nat) /\
  (forall s : @Async.AsyncMemoryManager B,
      length (Async.pendingWrites (snd (Async.saveWorker_take s)))
      = if Async.shouldStop s then length (Async.pendingWrites s)
        else (length (Async.pendingWrites s) - Async.BATCH_SIZE)%nat) /\
  (forall bound : nat,
      exists s, Async.reachable b d s /\ (bound < length (Async.pendingWrites s))%nat).
Proof.
  assert (Htake : forall s : @Async.AsyncMemoryManager B,
             length (Async.pendingWrites (snd (Async.saveWorker_take s)))
             = if Async.shouldStop s then length (Async.pendingWrites s)
               else (length (Async.pendingWrites s) - Async.BATCH_SIZE)%nat).
  { intros s. destruct (Async.shouldStop s) eqn:Hs.
    - now rewrite AsyncFacts.saveWorker_take_stopped.
    - rewrite AsyncFacts.saveWorker_take_running by exact Hs. apply length_skipn. }
  split; [|split; [|split]].
  - intros. rewrite AsyncFacts.addMemory_pending, length_app. simpl. lia.
  - intros io s.
    rewrite AsyncFacts.saveWorker_turn_eq, AsyncFacts.saveWorker_write_pending.
    apply Htake.
  - exact Htake.
  - intros bound.
    exists (Async.addMany (fun _ => EmptyString) Short Other 0 (S bound) (Async.create b d)).
    split; [apply AsyncFacts.addMany_reachable|].
    rewrite AsyncFacts.addMany_length. simpl. lia.
Qed.

(** ** C6: the count given to [getRecentMemories] *)

(** C6.  [getRecentMemories] does not use its [count]: over a store that
    lists its two records, [getRecentMemories(1)] returns both, the same as
    [getRecentMemories(50)]; [getTopMemories(1)], which hands its [count] to
    the store, returns one. *)
Theorem getRecentMemories_returns_more_than_count :
  length (Advanced.getRecentMemories 1 system_2) = 2%nat /\
  Advanced.getRecentMemories 1 system_2 = Advanced.getRecentMemories 50 system_2 /\
  length (Advanced.getTopMemories 1 system_2) = 1%nat.
Proof. repeat split. Qed.

(** ** C7: the batch search *)

(** C7.  Whatever sort meets the contract of [std::sort], the list returned
    by [searchMemoriesBatch] has pairwise different contents, is in
    strictly increasing order of content, holds only items of the
    concatenated per-query results, and holds an item for every content
    that occurs in them. *)
Theorem searchMemoriesBatch_sorted_without_duplicates
    {B : Type} `{MemoryManager B} {C : Type} `{LRUCache C}
    (std_sort : list MemoryItem -> list MemoryItem)
    (queries : list string) (maxResults : Z) (durations : list Z)
    (s : @Advanced.AdvancedMemoryManager B C) :
  std_sort_contract std_sort ->
  let allResults := concat (Advanced.results_of queries maxResults durations s) in
  let returned := fst (Advanced.searchMemoriesBatch std_sort queries maxResults durations s) in
  NoDup (map content returned) /\
  StronglySorted below returned /\
  (forall x, In x returned -> In x allResults) /\
  (forall x, In x allResults -> exists y, In y returned /\ content y = content x).
Proof.
  intros Hsort allResults returned.
  assert (E : returned = std_unique (std_sort allResults)).
  { subst returned allResults. unfold Advanced.searchMemoriesBatch.
    pose proof (AdvancedFacts.search_all_concat queries maxResults durations [] s) as Hc.
    destruct (Advanced.search_all queries maxResults durations [] s) as [l s'].
    simpl in *. now rewrite Hc. }
  destruct (Hsort allResults) as [Hperm Hsorted].
  assert (Hstrong : StronglySorted below returned).
  { rewrite E. apply Sorted_StronglySorted; [exact SortFacts.below_trans|].
    now apply SortFacts.std_unique_sorted. }
  split; [now apply SortFacts.below_NoDup|].
  split; [exact Hstrong|].
  rewrite E. split.
  - intros x Hx. apply SortFacts.std_unique_In in Hx.
    now apply (Permutation_in _ Hperm).
  - intros x Hx. apply SortFacts.std_unique_covers.
    now apply (Permutation_in _ (Permutation_sym Hperm)).
Qed.

Lemma insertion_sort_contract : std_sort_contract insertion_sort.
Proof.
  intros l. split;
    [apply SortFacts.insertion_sort_perm | apply SortFacts.insertion_sort_sorted].
Qed.

Lemma searchMemoriesBatch_sorted_without_duplicates_witness :
  std_sort_contract insertion_sort /\
  NoDup (map content
           (fst (Advanced.searchMemoriesBatch insertion_sort ["m"; "m"; "m1"]%string
                   10 [] system_2))) /\
  StronglySorted below
    (fst (Advanced.searchMemoriesBatch insertion_sort ["m"; "m"; "m1"]%string
            10 [] system_2)).
Proof.
  split; [exact insertion_sort_contract|].
  pose proof (searchMemoriesBatch_sorted_without_duplicates
                insertion_sort ["m"; "m"; "m1"]%string 10 [] system_2
                insertion_sort_contract) as P.
  split; [exact (proj1 P) | exact (proj1 (proj2 P))].
Defined.

(** ** C8: the classifier *)

(** C8.  [classifyMemory] is a function of the text alone; its value is the
    first category, in the order Work, Family, Friendship, Happiness, one of
    whose keywords occurs in the lower-cased text, and [Other] when no
    keyword occurs; it agrees with the table-driven classifier; and
    "公司项目进展" is Work. *)
Theorem classifyMemory_is_the_first_match (text : string) :
  first_match (Str.transform_tolower text) [Work; Family; Friendship; Happiness]
              (classifyMemory text) /\
  classifyMemory text = classify_spec text /\
  classifyMemory "公司项目进展" = Work.
Proof.
  split; [apply classifyMemory_first_match|].
  split; [apply classifyMemory_classify_spec | vm_compute; reflexivity].
Qed.

(** ** C9: the statistics snapshot *)




(** ** C10: [Other] given to [addMemory] *)

(** C10.  On a running system, for a content in which a keyword of a
    category occurs, [addMemory] called with [Other] does what it does when
    called with the classifier's category, which is not [Other] (and is Work
    when the keyword is one of Work): that category is in the item put on
    the pending queue, in the call to the base store and in the published
    event. *)
Theorem addMemory_Other_stores_the_classified_category
    {B : Type} `{MemoryManager B} {C : Type} `{LRUCache C}
    (c : string) (t : MemoryType) (now : Z)
    (s : @Advanced.AdvancedMemoryManager B C) (cat : MemoryCategory) (k : string) :
  Advanced.running_ s = true ->
  In k (keywords cat) ->
  Str.occurs_in k c ->
  let s' := Advanced.addMemory c t Other now s in
  let item := mkItem c t (classifyMemory c) (to_string now) in
  classifyMemory c <> Other /\
  (cat = Work -> classifyMemory c = Work) /\
  s' = Advanced.addMemory c t (classifyMemory c) now s /\
  Async.pendingWrites (Advanced.asyncManager_ s')
    = Async.pendingWrites (Advanced.asyncManager_ s) ++ [item] /\
  Async.base (Advanced.asyncManager_ s')
    = base_addMemory c t (classifyMemory c) now (Async.base (Advanced.asyncManager_ s)) /\
  Advanced.eventBus s' = Advanced.eventBus s ++ [MEMORY_ADDED item].
Proof.
  intros Hrun Hk Hocc s' item.
  assert (Hm : matches cat (Str.transform_tolower c))
    by (apply matches_lower; exists k; auto).
  assert (Hno : classifyMemory c <> Other).
  { intros E. exact (proj1 (classifyMemory_Other_iff c) E cat Hm). }
  split; [exact Hno|]. split.
  { intros ->. pose proof (classifyMemory_first_match c) as Hf.
    unfold classify_order in Hf. inversion Hf; subst; [reflexivity | contradiction]. }
  assert (Es : s' = Advanced.addMemory c t (classifyMemory c) now s).
  { subst s'. rewrite !AdvancedFacts.addMemory_running by exact Hrun. simpl.
    destruct (classifyMemory c); reflexivity. }
  split; [exact Es|].
  subst s'. rewrite AdvancedFacts.addMemory_running by exact Hrun. simpl.
  rewrite AsyncFacts.addMemory_pending. repeat split.
  unfold Async.addMemory, Async.asyncSave. case_if; reflexivity.
Qed.

Lemma addMemory_Other_stores_the_classified_category_witness :
  Advanced.running_ (Advanced.start fresh) = true /\
  In "项目"%string (keywords Work) /\
  Str.occurs_in "项目" "公司项目进展" /\
  category (last (Async.pendingWrites
                    (Advanced.asyncManager_
                       (Advanced.addMemory "公司项目进展" Long Other 0
                          (Advanced.start fresh))))
                 (mkItem "" Short Other "")) = Work.
Proof.
  assert (Hrun : Advanced.running_ (Advanced.start fresh) = true) by reflexivity.
  assert (Hk : In "项目"%string (keywords Work)) by (simpl; auto).
  assert (Hocc : Str.occurs_in "项目" "公司项目进展")
    by (exists "公司"%string, "进展"%string; reflexivity).
  do 3 (split; [assumption|]).
  destruct (addMemory_Other_stores_the_classified_category
              "公司项目进展" Long 0 (Advanced.start fresh) Work "项目" Hrun Hk Hocc)
    as (_ & HW & _ & Hq & _).
  rewrite Hq, last_last. simpl. exact (HW eq_refl).
Defined.

(** * Further properties of the write-back engine *)

Module AsyncRunsFacts.

Import Async AsyncRuns.

Lemma lines_of_app t l1 l2 : lines_of t (l1 ++ l2) = lines_of t l1 ++ lines_of t l2.
Proof. unfold lines_of. now rewrite filter_app, map_app. Qed.

Lemma lines_of_cons_same m items :
  lines_of (type m) (m :: items) = line m :: lines_of (type m) items.
Proof. unfold lines_of; simpl. now destruct (type m). Qed.

Lemma lines_of_cons_other t m items :
  type m <> t -> lines_of t (m :: items) = lines_of t items.
Proof.
  intros Hne. unfold lines_of; simpl.
  destruct (type m), t; simpl; try reflexivity; contradiction.
Qed.

Lemma taken_cons room x lines :
  taken room (x :: lines)
  = if takes room then x :: taken (spend room) lines else [].
Proof. destruct room as [[|n]|]; reflexivity. Qed.

(** The loop of [saveBatch], seen from one destination. *)
Lemma write_items_destination t items f d :
  destination t (snd (fold_left write_item items (f, d)))
  = destination t d ++ taken (room t f) (lines_of t items).
Proof.
  revert f d; induction items as [|m items IH]; intros f d.
  - simpl. destruct (room t f); simpl; now rewrite ?firstn_nil, app_nil_r.
  - cbn [fold_left]. unfold write_item at 2.
    destruct (type m) eqn:Em, t;
      rewrite IH;
      try (rewrite (lines_of_cons_other _ m items) by (rewrite Em; discriminate);
           cbn [room sfile mfile lfile];
           match goal with
           | |- context [if ?b then _ else _] => destruct b
           end; reflexivity);
      rewrite <- Em, lines_of_cons_same, taken_cons, Em;
      cbn [room sfile mfile lfile];
      match goal with
      | |- context [takes ?r] => destruct (takes r) eqn:Ht
      end; cbn [destination SHORT_PATH MID_PATH LONG_PATH];
      try (rewrite <- app_assoc; reflexivity);
      match goal with
      | Ht : takes ?r = false |- _ =>
          destruct r as [[|n]|]; try discriminate Ht; cbn [spend taken];
          now rewrite firstn_O
      end.
Qed.

Lemma saveBatch_destination t io items d :
  destination t (saveBatch io items d)
  = destination t d ++ taken (fails_after io t) (lines_of t (attempted io items)).
Proof.
  unfold saveBatch. rewrite write_items_destination.
  destruct t; reflexivity.
Qed.

Lemma saveBatch_delivers t io items d :
  delivers t io = true ->
  destination t (saveBatch io items d) = destination t d ++ lines_of t items.
Proof.
  unfold delivers. intros Hd. rewrite saveBatch_destination. unfold attempted.
  destruct (fails_after io t); [discriminate Hd|].
  destruct (throws_at io); [discriminate Hd|]. reflexivity.
Qed.

Lemma delivers_success t : delivers t success = true.
Proof. reflexivity. Qed.

Section WithBase.

Context {B : Type} `{MemoryManager B}.

Local Abbreviation engine_state := (@AsyncMemoryManager B).

Lemma with_pending_same (s : engine_state) : with_pending (pendingWrites s) (disk s) s = s.
Proof. now destruct s. Qed.

Lemma saveWorker_turn_shouldStop io (s : engine_state) :
  shouldStop (saveWorker_turn io s) = shouldStop s.
Proof.
  rewrite AsyncFacts.saveWorker_turn_eq.
  destruct (AsyncFacts.saveWorker_write_flags io (fst (saveWorker_take s))
              (snd (saveWorker_take s))) as (E & _).
  rewrite E. apply AsyncFacts.saveWorker_take_flags.
Qed.

Lemma saveWorker_turn_disk io (s : engine_state) :
  shouldStop s = false ->
  disk (saveWorker_turn io s)
  = saveBatch io (firstn BATCH_SIZE (pendingWrites s)) (disk s).
Proof.
  intros Hs. rewrite AsyncFacts.saveWorker_turn_eq, AsyncFacts.saveWorker_write_disk.
  now rewrite AsyncFacts.saveWorker_take_running.
Qed.

Lemma addMemory_disk c t cat now (s : engine_state) :
  disk (addMemory c t cat now s) = disk s.
Proof. unfold addMemory, asyncSave. case_if; reflexivity. Qed.

(** Writing the first [n] pending items, with everything delivered, and
    keeping the others leaves file and queue together as they are. *)
Lemma written_and_left t io n (q : list MemoryItem) (d : Disk) :
  delivers t io = true ->
  destination t (saveBatch io (firstn n q) d) ++ lines_of t (skipn n q)
  = destination t d ++ lines_of t q.
Proof.
  intros Hd. rewrite saveBatch_delivers by exact Hd.
  now rewrite <- app_assoc, <- lines_of_app, firstn_skipn.
Qed.

Lemma ledger_addMemory t c ty cat now (l : @Live B) :
  ledger t (mkLive (addMemory c ty cat now (engine l)) (batch l))
  = ledger t l ++ lines_of t [mkItem c ty cat (to_string now)].
Proof.
  unfold ledger; cbn [engine batch].
  rewrite addMemory_disk, AsyncFacts.addMemory_pending, lines_of_app.
  now rewrite <- !app_assoc.
Qed.

Lemma ledger_flushPendingWrites t io (l : @Live B) :
  delivers t io = true -> batch l = [] ->
  ledger t (mkLive (flushPendingWrites io (engine l)) (batch l)) = ledger t l.
Proof.
  intros Hd Hb. unfold ledger; cbn [engine batch]. rewrite Hb.
  change (lines_of t []) with (@nil string). cbn [app].
  rewrite AsyncFacts.flushPendingWrites_pending, AsyncFacts.flushPendingWrites_disk.
  now apply written_and_left.
Qed.

Lemma ledger_save t io (l : @Live B) :
  delivers t io = true -> batch l = [] ->
  ledger t (mkLive (save io (engine l)) (batch l)) = ledger t l.
Proof.
  intros Hd Hb. rewrite <- (ledger_flushPendingWrites t io l Hd Hb).
  unfold ledger, save; reflexivity.
Qed.

Lemma ledger_take t (l : @Live B) :
  batch l = [] ->
  ledger t (mkLive (snd (saveWorker_take (engine l))) (fst (saveWorker_take (engine l))))
  = ledger t l.
Proof.
  intros Hb. unfold ledger; cbn [engine batch]. rewrite Hb.
  change (lines_of t []) with (@nil string). cbn [app].
  destruct (shouldStop (engine l)) eqn:Hs.
  - now rewrite AsyncFacts.saveWorker_take_stopped.
  - rewrite AsyncFacts.saveWorker_take_running by exact Hs.
    cbn [fst snd with_pending disk pendingWrites].
    now rewrite <- lines_of_app, firstn_skipn.
Qed.

Lemma ledger_write t io (l : @Live B) :
  delivers t io = true ->
  ledger t (mkLive (saveWorker_write io (batch l) (engine l)) []) = ledger t l.
Proof.
  intros Hd. unfold ledger; cbn [engine batch].
  rewrite AsyncFacts.saveWorker_write_disk, AsyncFacts.saveWorker_write_pending.
  rewrite saveBatch_delivers by exact Hd.
  change (lines_of t []) with (@nil string). cbn [app].
  now rewrite <- app_assoc.
Qed.

Lemma ledger_idle t (s : engine_state) :
  ledger t (mkLive s []) = destination t (disk s) ++ lines_of t (pendingWrites s).
Proof. reflexivity. Qed.

Lemma iter_flush_pending io k (s : engine_state) :
  pendingWrites (Nat.iter k (flushPendingWrites io) s)
  = skipn (k * BATCH_SIZE) (pendingWrites s).
Proof.
  induction k as [|k IH]; [reflexivity|].
  rewrite Nat.iter_succ. rewrite AsyncFacts.flushPendingWrites_pending, IH, skipn_skipn.
  f_equal.
Qed.

Lemma iter_flush_ledger t io k (s : engine_state) :
  delivers t io = true ->
  ledger t (mkLive (Nat.iter k (flushPendingWrites io) s) []) = ledger t (mkLive s []).
Proof.
  intros Hd. induction k as [|k IH]; [reflexivity|].
  rewrite Nat.iter_succ, <- IH.
  exact (ledger_flushPendingWrites t io
           (mkLive (Nat.iter k (flushPendingWrites io) s) []) Hd eq_refl).
Qed.

Lemma iter_worker_shouldStop io k (s : engine_state) :
  shouldStop (Nat.iter k (saveWorker_turn io) s) = shouldStop s.
Proof.
  induction k as [|k IH]; [reflexivity|].
  rewrite Nat.iter_succ. now rewrite saveWorker_turn_shouldStop.
Qed.

Lemma iter_worker_pending io k (s : engine_state) :
  shouldStop s = false ->
  pendingWrites (Nat.iter k (saveWorker_turn io) s)
  = skipn (k * BATCH_SIZE) (pendingWrites s).
Proof.
  intros Hs. induction k as [|k IH]; [reflexivity|].
  rewrite Nat.iter_succ. rewrite AsyncFacts.saveWorker_turn_pending.
  - rewrite IH, skipn_skipn. f_equal.
  - now rewrite iter_worker_shouldStop.
Qed.

Lemma ledger_saveWorker_turn t io (s : engine_state) :
  delivers t io = true ->
  ledger t (mkLive (saveWorker_turn io s) []) = ledger t (mkLive s []).
Proof.
  intros Hd. rewrite AsyncFacts.saveWorker_turn_eq.
  pose proof (ledger_write t io
                (mkLive (snd (saveWorker_take s)) (fst (saveWorker_take s))) Hd) as E.
  cbn [engine batch] in E. rewrite E.
  exact (ledger_take t (mkLive s []) eq_refl).
Qed.

Lemma iter_worker_ledger t io k (s : engine_state) :
  delivers t io = true ->
  ledger t (mkLive (Nat.iter k (saveWorker_turn io) s) []) = ledger t (mkLive s []).
Proof.
  intros Hd. induction k as [|k IH]; [reflexivity|].
  rewrite Nat.iter_succ, <- IH. now apply ledger_saveWorker_turn.
Qed.

Lemma ledger_empty_queue t (s : engine_state) :
  pendingWrites s = [] -> ledger t (mkLive s []) = destination t (disk s).
Proof. intros E. rewrite ledger_idle, E. apply app_nil_r. Qed.

Lemma ledger_destroy t io (s : engine_state) :
  delivers t io = true ->
  ledger t (mkLive (destroy io s) []) = ledger t (mkLive s []).
Proof.
  intros Hd. unfold destroy.
  exact (ledger_flushPendingWrites t io
           (mkLive (mk (base s) (pendingWrites s) false true (isSavingFlag s) (disk s)) [])
           Hd eq_refl).
Qed.

Lemma destroy_flags io (s : engine_state) :
  shouldStop (destroy io s) = true /\ saveThread (destroy io s) = false.
Proof.
  unfold destroy, flushPendingWrites; simpl.
  destruct (pendingWrites s) as [|x q]; [split; reflexivity|].
  destruct (drain (x :: q) []) as [[|y held] rest]; split; reflexivity.
Qed.

End WithBase.

End AsyncRunsFacts.

(** X1.  [saveBatch] appends to the file of each type, after what the
    file held, the lines of the items of that type in the order of the
    batch, up to where an exception ends the loop or the stream of that type
    fails; the rest is dropped without an error.  When nothing fails all of
    them are appended; when no file opens nothing is written. *)
Theorem saveBatch_appends_by_type
    (t : MemoryType) (io : Async.Outcome) (items : list MemoryItem) (d : Disk) :
  destination t (Async.saveBatch io items d)
    = destination t d
      ++ AsyncRuns.taken (Async.fails_after io t)
           (AsyncRuns.lines_of t (Async.attempted io items)) /\
  destination t (Async.saveBatch Async.success items d)
    = destination t d ++ AsyncRuns.lines_of t items /\
  destination t (Async.saveBatch AsyncRuns.nothing_opens items d) = destination t d.
Proof.
  split; [apply AsyncRunsFacts.saveBatch_destination|]. split.
  - apply AsyncRunsFacts.saveBatch_delivers. reflexivity.
  - rewrite AsyncRunsFacts.saveBatch_destination. simpl. apply app_nil_r.
Qed.

(** X2.  [getPendingBatch] takes the oldest items of the queue, at most
    [BATCH_SIZE] of them and all of them when there are fewer, and leaves the
    others in the queue in their order; it does not touch the files. *)
Theorem getPendingBatch_takes_the_oldest
    {B : Type} `{MemoryManager B} (s : @Async.AsyncMemoryManager B) :
  fst (Async.getPendingBatch s) ++ Async.pendingWrites (snd (Async.getPendingBatch s))
    = Async.pendingWrites s /\
  length (fst (Async.getPendingBatch s))
    = Nat.min Async.BATCH_SIZE (length (Async.pendingWrites s)) /\
  Async.disk (snd (Async.getPendingBatch s)) = Async.disk s.
Proof.
  unfold Async.getPendingBatch. rewrite AsyncFacts.drain_firstn_skipn.
  cbn [length app fst snd Async.with_pending Async.pendingWrites Async.disk].
  rewrite Nat.sub_0_r.
  split; [apply firstn_skipn|]. split; [apply length_firstn | reflexivity].
Qed.

(** X3.  Over a run of [addMemory], [save], [flushPendingWrites] and the
    two parts of the worker's turns in which every write to the destination
    of a type is delivered and [save] and [flushPendingWrites] are not called
    while the worker holds a batch, the file of that type followed by the
    lines of the batch the worker holds and of the pending items grows
    exactly by the lines of the items added, in the order of the calls: an
    item is never written twice, never before an older one of its type, and
    is in its file, in the worker's hands or pending. *)
Theorem orderly_run_keeps_the_ledger
    {B : Type} `{MemoryManager B}
    (t : MemoryType) (actions : list AsyncRuns.action) (l : @Async.Live B) :
  AsyncRuns.orderly t actions l = true ->
  AsyncRuns.ledger t (AsyncRuns.run actions l)
  = AsyncRuns.ledger t l ++ AsyncRuns.lines_of t (AsyncRuns.added actions).
Proof.
  revert l; induction actions as [|a actions IH]; intros l Hord.
  - simpl. now rewrite app_nil_r.
  - change (AsyncRuns.run (a :: actions) l)
      with (AsyncRuns.run actions (AsyncRuns.perform l a)).
    cbn [AsyncRuns.orderly] in Hord. apply andb_true_iff in Hord.
    destruct Hord as [Ha Hrest]. rewrite (IH _ Hrest).
    destruct a as [c ty cat now|io|io| |io]; cbn [AsyncRuns.perform AsyncRuns.added].
    + rewrite AsyncRunsFacts.ledger_addMemory, <- app_assoc.
      now rewrite <- AsyncRunsFacts.lines_of_app.
    + apply andb_true_iff in Ha. destruct Ha as [Hd Hb].
      rewrite AsyncRunsFacts.ledger_save; trivial.
      now destruct (Async.batch l).
    + apply andb_true_iff in Ha. destruct Ha as [Hd Hb].
      rewrite AsyncRunsFacts.ledger_flushPendingWrites; trivial.
      now destruct (Async.batch l).
    + destruct (Async.batch l) eqn:Hb; [|reflexivity].
      now rewrite AsyncRunsFacts.ledger_take.
    + now rewrite AsyncRunsFacts.ledger_write.
Qed.

Lemma orderly_run_keeps_the_ledger_witness :
  AsyncRuns.orderly Short
    [AsyncRuns.AddMemory "a" Short Work 1; AsyncRuns.AddMemory "b" Mid Family 2;
     AsyncRuns.WorkerTake; AsyncRuns.AddMemory "c" Short Other 3;
     AsyncRuns.WorkerWrite Async.success; AsyncRuns.FlushPendingWrites Async.success]
    (Async.mkLive (Async.create ([] : ListStore) empty_disk) []) = true /\
  AsyncRuns.ledger Short
    (AsyncRuns.run
       [AsyncRuns.AddMemory "a" Short Work 1; AsyncRuns.AddMemory "b" Mid Family 2;
        AsyncRuns.WorkerTake; AsyncRuns.AddMemory "c" Short Other 3;
        AsyncRuns.WorkerWrite Async.success; AsyncRuns.FlushPendingWrites Async.success]
       (Async.mkLive (Async.create ([] : ListStore) empty_disk) []))
  = AsyncRuns.ledger Short (Async.mkLive (Async.create ([] : ListStore) empty_disk) [])
    ++ [Async.line (mkItem "a" Short Work "1"); Async.line (mkItem "c" Short Other "3")].
Proof.
  assert (Hord : AsyncRuns.orderly Short
            [AsyncRuns.AddMemory "a" Short Work 1; AsyncRuns.AddMemory "b" Mid Family 2;
             AsyncRuns.WorkerTake; AsyncRuns.AddMemory "c" Short Other 3;
             AsyncRuns.WorkerWrite Async.success;
             AsyncRuns.FlushPendingWrites Async.success]
            (Async.mkLive (Async.create ([] : ListStore) empty_disk) []) = true)
    by (vm_compute; reflexivity).
  split; [exact Hord|].
  exact (orderly_run_keeps_the_ledger Short _ _ Hord).
Defined.

(** Why [save] and [flushPendingWrites] are kept apart from a batch in the
    worker's hands above: the worker gives up the mutex before it writes, so
    a flush that comes in between writes a younger item before the older one
    the worker holds. *)
Lemma flush_overtakes_the_worker :
  destination Short
    (Async.disk
       (Async.engine
          (AsyncRuns.run
             [AsyncRuns.AddMemory "a" Short Work 1; AsyncRuns.WorkerTake;
              AsyncRuns.AddMemory "b" Short Work 2;
              AsyncRuns.FlushPendingWrites Async.success;
              AsyncRuns.WorkerWrite Async.success]
             (Async.mkLive (Async.create ([] : ListStore) empty_disk) []))))
  = [Async.line (mkItem "b" Short Work "2"); Async.line (mkItem "a" Short Work "1")].
Proof. vm_compute. reflexivity. Qed.

(** X4.  [k] calls of [flushPendingWrites] on a queue of at most
    [k * BATCH_SIZE] items leave the queue empty, whatever becomes of the
    writes; for a type whose writes are all delivered the file then holds
    what it held followed by the lines of the pending items of that type, in
    queue order. *)
Theorem flushes_empty_the_queue
    {B : Type} `{MemoryManager B}
    (io : Async.Outcome) (k : nat) (s : @Async.AsyncMemoryManager B) :
  (length (Async.pendingWrites s) <= k * Async.BATCH_SIZE)%nat ->
  Async.pendingWrites (Nat.iter k (Async.flushPendingWrites io) s) = [] /\
  forall t, AsyncRuns.delivers t io = true ->
            destination t (Async.disk (Nat.iter k (Async.flushPendingWrites io) s))
            = destination t (Async.disk s)
              ++ AsyncRuns.lines_of t (Async.pendingWrites s).
Proof.
  intros Hlen.
  assert (E : Async.pendingWrites (Nat.iter k (Async.flushPendingWrites io) s) = []).
  { rewrite AsyncRunsFacts.iter_flush_pending. now apply skipn_all2. }
  split; [exact E|]. intros t Hd.
  rewrite <- (AsyncRunsFacts.ledger_empty_queue t _ E).
  now rewrite AsyncRunsFacts.iter_flush_ledger.
Qed.

Lemma flushes_empty_the_queue_witness :
  (length (Async.pendingWrites engine_101) <= 2 * Async.BATCH_SIZE)%nat /\
  AsyncRuns.delivers Short Async.success = true /\
  Async.pendingWrites (Nat.iter 2 (Async.flushPendingWrites Async.success) engine_101)
    = [] /\
  destination Short
    (Async.disk (Nat.iter 2 (Async.flushPendingWrites Async.success) engine_101))
  = destination Short (Async.disk engine_101)
    ++ AsyncRuns.lines_of Short (Async.pendingWrites engine_101).
Proof.
  assert (Hlen : (length (Async.pendingWrites engine_101) <= 2 * Async.BATCH_SIZE)%nat).
  { unfold engine_101. rewrite AsyncFacts.addMany_length. vm_compute.
    repeat constructor. }
  assert (Hd : AsyncRuns.delivers Short Async.success = true) by reflexivity.
  split; [exact Hlen|]. split; [exact Hd|].
  split; [exact (proj1 (flushes_empty_the_queue Async.success 2 engine_101 Hlen))|].
  exact (proj2 (flushes_empty_the_queue Async.success 2 engine_101 Hlen) Short Hd).
Defined.

(** X5.  While [shouldStop] is not set, [k] turns of the worker with no
    other thread in between remove the [k * BATCH_SIZE] oldest items,
    whatever becomes of the writes, and [shouldStop] stays unset; when the
    queue had no more than that, the file of a type whose writes are all
    delivered holds what it held followed by the lines of the pending items
    of that type, in queue order. *)
Theorem worker_turns_drain_the_queue
    {B : Type} `{MemoryManager B}
    (io : Async.Outcome) (k : nat) (s : @Async.AsyncMemoryManager B) :
  Async.shouldStop s = false ->
  Async.pendingWrites (Nat.iter k (Async.saveWorker_turn io) s)
    = skipn (k * Async.BATCH_SIZE) (Async.pendingWrites s) /\
  Async.shouldStop (Nat.iter k (Async.saveWorker_turn io) s) = false /\
  ((length (Async.pendingWrites s) <= k * Async.BATCH_SIZE)%nat ->
   forall t, AsyncRuns.delivers t io = true ->
             destination t (Async.disk (Nat.iter k (Async.saveWorker_turn io) s))
             = destination t (Async.disk s)
               ++ AsyncRuns.lines_of t (Async.pendingWrites s)).
Proof.
  intros Hs.
  pose proof (AsyncRunsFacts.iter_worker_pending io k s Hs) as E.
  split; [exact E|].
  split; [now rewrite AsyncRunsFacts.iter_worker_shouldStop|].
  intros Hlen t Hd.
  rewrite skipn_all2 in E by exact Hlen.
  rewrite <- (AsyncRunsFacts.ledger_empty_queue t _ E).
  now rewrite AsyncRunsFacts.iter_worker_ledger.
Qed.

Lemma worker_turns_drain_the_queue_witness :
  Async.shouldStop engine_101 = false /\
  (length (Async.pendingWrites engine_101) <= 2 * Async.BATCH_SIZE)%nat /\
  AsyncRuns.delivers Short Async.success = true /\
  destination Short
    (Async.disk (Nat.iter 2 (Async.saveWorker_turn Async.success) engine_101))
  = destination Short (Async.disk engine_101)
    ++ AsyncRuns.lines_of Short (Async.pendingWrites engine_101).
Proof.
  assert (Hs : Async.shouldStop engine_101 = false) by (vm_compute; reflexivity).
  assert (Hlen : (length (Async.pendingWrites engine_101) <= 2 * Async.BATCH_SIZE)%nat).
  { unfold engine_101. rewrite AsyncFacts.addMany_length. vm_compute.
    repeat constructor. }
  assert (Hd : AsyncRuns.delivers Short Async.success = true) by reflexivity.
  split; [exact Hs|]. split; [exact Hlen|]. split; [exact Hd|].
  exact (proj2 (proj2 (worker_turns_drain_the_queue Async.success 2 engine_101 Hs))
           Hlen Short Hd).
Defined.

(** X6.  The destructor of a live engine with at most [BATCH_SIZE] items
    pending leaves the queue empty, [shouldStop] set and the worker joined,
    whatever becomes of the writes; for a type whose writes are delivered,
    in the write the join waits for and in the last flush, nothing is lost:
    the file holds what it held, then the lines of the batch the worker
    held, then those of the pending items. *)
Theorem shutdown_with_one_batch_pending
    {B : Type} `{MemoryManager B}
    (joined flushed : Async.Outcome) (l : @Async.Live B) :
  (length (Async.pendingWrites (Async.engine l)) <= Async.BATCH_SIZE)%nat ->
  Async.pendingWrites (Async.shutdown joined flushed l) = [] /\
  Async.shouldStop (Async.shutdown joined flushed l) = true /\
  Async.saveThread (Async.shutdown joined flushed l) = false /\
  forall t, AsyncRuns.delivers t joined = true ->
            AsyncRuns.delivers t flushed = true ->
            destination t (Async.disk (Async.shutdown joined flushed l))
            = AsyncRuns.ledger t l.
Proof.
  intros Hlen. unfold Async.shutdown.
  set (s1 := Async.saveWorker_write joined (Async.batch l) (Async.engine l)).
  assert (E : Async.pendingWrites (Async.destroy flushed s1) = []).
  { rewrite AsyncFacts.destroy_pending. subst s1.
    rewrite AsyncFacts.saveWorker_write_pending. now apply skipn_all2. }
  split; [exact E|].
  destruct (AsyncRunsFacts.destroy_flags flushed s1) as [F1 F2].
  split; [exact F1|]. split; [exact F2|].
  intros t Hj Hf.
  rewrite <- (AsyncRunsFacts.ledger_empty_queue t _ E).
  rewrite AsyncRunsFacts.ledger_destroy by exact Hf.
  subst s1. exact (AsyncRunsFacts.ledger_write t joined l Hj).
Qed.

Lemma shutdown_with_one_batch_pending_witness :
  (length (Async.pendingWrites
             (Async.engine
                (AsyncRuns.run
                   [AsyncRuns.AddMemory "a" Mid Family 7; AsyncRuns.WorkerTake;
                    AsyncRuns.AddMemory "b" Mid Work 8]
                   (Async.mkLive (Async.create ([] : ListStore) empty_disk) []))))
   <= Async.BATCH_SIZE)%nat /\
  AsyncRuns.delivers Mid Async.success = true /\
  destination Mid
    (Async.disk
       (Async.shutdown Async.success Async.success
          (AsyncRuns.run
             [AsyncRuns.AddMemory "a" Mid Family 7; AsyncRuns.WorkerTake;
              AsyncRuns.AddMemory "b" Mid Work 8]
             (Async.mkLive (Async.create ([] : ListStore) empty_disk) []))))
  = [Async.line (mkItem "a" Mid Family "7"); Async.line (mkItem "b" Mid Work "8")].
Proof.
  assert (Hlen : (length (Async.pendingWrites
                            (Async.engine
                               (AsyncRuns.run
                                  [AsyncRuns.AddMemory "a" Mid Family 7;
                                   AsyncRuns.WorkerTake;
                                   AsyncRuns.AddMemory "b" Mid Work 8]
                                  (Async.mkLive
                                     (Async.create ([] : ListStore) empty_disk) []))))
                  <= Async.BATCH_SIZE)%nat)
    by (vm_compute; repeat constructor).
  assert (Hd : AsyncRuns.delivers Mid Async.success = true) by reflexivity.
  split; [exact Hlen|]. split; [exact Hd|].
  exact (proj2 (proj2 (proj2 (shutdown_with_one_batch_pending
                                Async.success Async.success _ Hlen))) Mid Hd Hd).
Defined.

(** X7.  A turn of the worker that finds [shouldStop] set or the queue
    empty (a wake-up by the timer) takes nothing and changes nothing, and so
    does [flushPendingWrites] on an empty queue: no file is written,
    whatever the files would do. *)
Theorem nothing_pending_nothing_written
    {B : Type} `{MemoryManager B}
    (io : Async.Outcome) (s : @Async.AsyncMemoryManager B) :
  Async.shouldStop s = true \/ Async.pendingWrites s = [] ->
  Async.saveWorker_turn io s = s /\
  Async.saveWorker_take s = ([], s) /\
  (Async.pendingWrites s = [] -> Async.flushPendingWrites io s = s).
Proof.
  intros Hidle.
  assert (Etake : Async.saveWorker_take s = ([], s)).
  { destruct (Async.shouldStop s) eqn:Hs.
    - now apply AsyncFacts.saveWorker_take_stopped.
    - destruct Hidle as [C|E]; [discriminate C|].
      rewrite AsyncFacts.saveWorker_take_running by exact Hs. rewrite E.
      rewrite firstn_nil, skipn_nil, <- E.
      now rewrite AsyncRunsFacts.with_pending_same. }
  split; [|split; [exact Etake|]].
  - rewrite AsyncFacts.saveWorker_turn_eq, Etake. reflexivity.
  - intros E. unfold Async.flushPendingWrites. now rewrite E.
Qed.

Lemma nothing_pending_nothing_written_witness :
  (Async.shouldStop (Async.create ([] : ListStore) empty_disk) = true
   \/ Async.pendingWrites (Async.create ([] : ListStore) empty_disk) = []) /\
  Async.saveWorker_turn AsyncRuns.nothing_opens (Async.create ([] : ListStore) empty_disk)
  = Async.create ([] : ListStore) empty_disk.
Proof.
  assert (Hidle : Async.shouldStop (Async.create ([] : ListStore) empty_disk) = true
                  \/ Async.pendingWrites (Async.create ([] : ListStore) empty_disk) = [])
    by (right; reflexivity).
  split; [exact Hidle|].
  exact (proj1 (nothing_pending_nothing_written AsyncRuns.nothing_opens _ Hidle)).
Defined.

(** * Further properties of the orchestrator *)

Module AdvancedRunsFacts.

Import Advanced AdvancedRuns.

Section WithCollaborators.

Context {B : Type} `{MemoryManager B} {C : Type} `{LRUCache C}.

Local Abbreviation state := (@AdvancedMemoryManager B C).

Lemma Async_addMemory_flags c t cat now (a : @Async.AsyncMemoryManager B) :
  Async.shouldStop (Async.addMemory c t cat now a) = Async.shouldStop a /\
  Async.saveThread (Async.addMemory c t cat now a) = Async.saveThread a.
Proof. unfold Async.addMemory, Async.asyncSave. case_if; split; reflexivity. Qed.

Lemma create_consistent b d : consistent (create b d : state).
Proof.
  unfold consistent, create; simpl.
  repeat split; try reflexivity; discriminate.
Qed.

Lemma addMemory_consistent c t cat now (s : state) :
  consistent s -> consistent (addMemory c t cat now s).
Proof.
  intros Hs. unfold addMemory. case_if; [exact Hs|].
  destruct Hs as (H1 & H2 & H3 & H4 & H5 & H6 & H7 & H8).
  unfold consistent; simpl.
  destruct (Async_addMemory_flags c t
              (if MemoryCategory_eqb cat Other then classifyMemory c else cat)
              now (asyncManager_ s)) as [E1 E2].
  rewrite E1, E2. repeat split; tauto.
Qed.

Lemma addMemoriesBatch_consistent memories now (s : state) :
  consistent s -> consistent (addMemoriesBatch memories now s).
Proof.
  unfold addMemoriesBatch. revert s.
  induction memories as [|m memories IH]; intros s Hs; simpl; [exact Hs|].
  apply IH. now apply addMemory_consistent.
Qed.

Lemma searchMemories_consistent query maxResults duration (s : state) :
  consistent s -> consistent (snd (searchMemories query maxResults duration s)).
Proof.
  intros (H1 & H2 & H3 & H4 & H5 & H6 & H7 & H8).
  unfold searchMemories.
  destruct (cache_get query (memoryCache_ s)) as [[item|] cache]; simpl.
  - unfold consistent; simpl.
    repeat split; try tauto; apply AdvancedFacts.wrap_range.
  - rewrite H3.
    destruct (base_getRelatedMemories query maxResults (Async.base (asyncManager_ s)));
      unfold consistent; simpl; rewrite H4;
      repeat split; try tauto; apply AdvancedFacts.wrap_range.
Qed.

Lemma with_async_consistent (a : @Async.AsyncMemoryManager B) (s : state) :
  Async.shouldStop a = Async.shouldStop (asyncManager_ s) ->
  Async.saveThread a = Async.saveThread (asyncManager_ s) ->
  consistent s -> consistent (with_async a s).
Proof.
  intros E1 E2 (H1 & H2 & H3 & H4 & H5 & H6 & H7 & H8).
  unfold consistent; simpl. rewrite E1, E2. intuition congruence.
Qed.

Lemma perform_consistent (l : Live) (c : call) :
  consistent (system l) -> consistent (system (perform l c)).
Proof.
  intros Hs. destruct c; cbn [perform system].
  - now apply addMemory_consistent.
  - now apply searchMemories_consistent.
  - exact Hs.
  - exact Hs.
  - destruct Hs as (H1 & H2 & H3 & H4 & H5 & H6 & H7 & H8).
    unfold cleanupExpiredMemories. rewrite H3.
    unfold consistent; simpl. intuition congruence.
  - now apply addMemoriesBatch_consistent.
  - exact Hs.
  - exact Hs.
  - destruct Hs as (H1 & H2 & H3 & H4 & H5 & H6 & H7 & H8).
    unfold start. case_if; unfold consistent; simpl; intuition congruence.
  - destruct Hs as (H1 & H2 & H3 & H4 & H5 & H6 & H7 & H8).
    unfold stop. case_if; unfold consistent; simpl; intuition congruence.
  - destruct (held l); [|exact Hs]. cbn [system].
    destruct (AsyncFacts.saveWorker_take_flags (asyncManager_ (system l)))
      as (E1 & E2 & _).
    now apply with_async_consistent.
  - destruct (AsyncFacts.saveWorker_write_flags io (held l) (asyncManager_ (system l)))
      as (E1 & E2 & _).
    now apply with_async_consistent.
  - destruct Hs as (H1 & H2 & H3 & H4 & H5 & H6 & H7 & H8).
    unfold backgroundWorker_turn. case_if; [|unfold consistent; intuition congruence].
    unfold cleanupExpiredMemories. rewrite H3. simpl.
    destruct (base_getAllMemories (Async.base (asyncManager_ (system l))));
      unfold consistent; simpl; intuition congruence.
Qed.

Lemma run_live_consistent (calls : list call) (l : Live) :
  consistent (system l) -> consistent (system (run_live calls l)).
Proof.
  unfold run_live. revert l.
  induction calls as [|c calls IH]; intros l Hs; simpl; [exact Hs|].
  apply IH. now apply perform_consistent.
Qed.

Lemma run_consistent (calls : list call) (s : state) :
  consistent s -> consistent (run calls s).
Proof. intros Hs. unfold run. now apply run_live_consistent. Qed.

(** The effect of a lookup on the parts it does not count with. *)
Lemma searchMemories_frame query maxResults duration (s : state) :
  let s' := snd (searchMemories query maxResults duration s) in
  asyncManager_ s' = asyncManager_ s /\
  weightManager_ s' = weightManager_ s /\
  running_ s' = running_ s /\
  semanticSearch_ s' = semanticSearch_ s /\
  eventBus s' = eventBus s ++
                match fst (cache_get query (memoryCache_ s)) with
                | Some _ => []
                | None => [MEMORY_SEARCHED query]
                end.
Proof.
  unfold searchMemories.
  destruct (cache_get query (memoryCache_ s)) as [[item|] cache]; simpl.
  - rewrite app_nil_r. repeat split.
  - repeat match goal with
           | |- context [match ?x with _ => _ end] => destruct x; simpl
           end; repeat split.
Qed.

Lemma search_all_state queries maxResults durations acc (s : state) :
  snd (search_all queries maxResults durations acc s)
  = search_run (lookups queries durations) maxResults s.
Proof.
  revert durations acc s; induction queries as [|query queries IH];
    intros durations acc s; simpl; [reflexivity|].
  destruct (searchMemories query maxResults (hd 0%Z durations) s) as [results s'].
  simpl. apply IH.
Qed.

Lemma addMemory_running_kept c t cat now (s : state) :
  running_ (addMemory c t cat now s) = running_ s.
Proof. unfold addMemory. case_if; reflexivity. Qed.

Lemma addMemoriesBatch_running memories now (s : state) :
  running_ s = true ->
  let s' := addMemoriesBatch memories now s in
  running_ s' = true /\
  Async.pendingWrites (asyncManager_ s')
    = Async.pendingWrites (asyncManager_ s) ++ classified memories now /\
  Async.disk (asyncManager_ s') = Async.disk (asyncManager_ s) /\
  weightManager_ s'
    = weightManager_ s ++ map (fun m => recordAccess (fst m) (to_string now)) memories /\
  eventBus s' = eventBus s ++ map MEMORY_ADDED (classified memories now).
Proof.
  unfold addMemoriesBatch, classified. revert s.
  induction memories as [|m memories IH]; intros s Hrun; simpl.
  - rewrite !app_nil_r. repeat split; assumption.
  - assert (Hrun' : running_ (addMemory (fst m) (snd m) Other now s) = true)
      by now rewrite addMemory_running_kept.
    destruct (IH _ Hrun') as (E1 & E2 & E3 & E4 & E5).
    split; [exact E1|].
    rewrite E2, E3, E4, E5.
    rewrite (AdvancedFacts.addMemory_running _ _ _ _ _ Hrun). simpl.
    rewrite AsyncFacts.addMemory_pending, AsyncRunsFacts.addMemory_disk.
    rewrite <- !app_assoc. repeat split.
Qed.

Lemma stop_asyncManager (s : state) : asyncManager_ (stop s) = asyncManager_ s.
Proof. unfold stop. case_if; reflexivity. Qed.

Lemma stop_running (s : state) : running_ (stop s) = false.
Proof.
  unfold stop. destruct (running_ s) eqn:E; simpl; [reflexivity | exact E].
Qed.

End WithCollaborators.

(** Lower-casing and the keywords. *)

Lemma tolower_high_preimage c c' :
  high c = true -> Str.tolower c' = c -> c' = c.
Proof.
  unfold high, Str.tolower. intros Hc E.
  destruct ((65 <=? nat_of_ascii c')%nat && (nat_of_ascii c' <=? 90)%nat) eqn:Hup;
    [|exact E].
  apply andb_true_iff in Hup. destruct Hup as [H1 H2].
  apply Nat.leb_le in H1, H2, Hc. exfalso.
  rewrite <- E, nat_ascii_embedding in Hc; lia.
Qed.

Lemma transform_tolower_high_preimage k s :
  all_high k = true -> Str.transform_tolower s = k -> s = k.
Proof.
  revert s; induction k as [|c k IH]; intros [|c' s] Hk E; simpl in *;
    try reflexivity; try discriminate E.
  apply andb_true_iff in Hk. destruct Hk as [Hc Hk].
  injection E as Ec Es. f_equal.
  - exact (tolower_high_preimage c c' Hc Ec).
  - exact (IH s Hk Es).
Qed.

Lemma transform_tolower_split s a b :
  Str.transform_tolower s = (a ++ b)%string ->
  exists s1 s2, s = (s1 ++ s2)%string /\
                Str.transform_tolower s1 = a /\ Str.transform_tolower s2 = b.
Proof.
  revert s; induction a as [|c a IH]; intros s E; simpl in E.
  - exists EmptyString, s. repeat split. exact E.
  - destruct s as [|c' s]; simpl in E; [discriminate E|].
    injection E as Ec Es.
    destruct (IH s Es) as (s1 & s2 & Hs & E1 & E2).
    exists (String c' s1), s2. simpl. rewrite E1, Ec, Hs. repeat split. exact E2.
Qed.

Lemma keyword_all_high c k : In k (keywords c) -> all_high k = true.
Proof.
  destruct c; simpl; intros Hk;
    repeat (destruct Hk as [Hk|Hk]; [subst k; vm_compute; reflexivity|]);
    contradiction.
Qed.

Lemma matches_lower_iff c text :
  matches c (Str.transform_tolower text) <-> matches c text.
Proof.
  split; [|apply matches_lower].
  intros [k [Hin [pre [post E]]]]. exists k. split; [exact Hin|].
  apply transform_tolower_split in E. destruct E as (s1 & s23 & -> & E1 & E23).
  apply transform_tolower_split in E23. destruct E23 as (s2 & s3 & -> & E2 & E3).
  apply (transform_tolower_high_preimage k s2 (keyword_all_high c k Hin)) in E2.
  subst s2. now exists s1, s3.
Qed.

Lemma first_match_ext text text' cs r :
  (forall c, matches c text <-> matches c text') ->
  first_match text cs r -> first_match text' cs r.
Proof.
  intros Hm. induction 1 as [|c cs Hc|c cs r Hc Hf IH].
  - constructor.
  - apply fm_here. now apply Hm.
  - apply fm_later; [|exact IH]. intros Hc'. apply Hc. now apply Hm.
Qed.

End AdvancedRunsFacts.

Lemma wrap_add_l (a b : Z) : wrap (wrap a + b) = wrap (a + b).
Proof. unfold wrap. apply Zplus_mod_idemp_l. Qed.

Lemma wrap_add_r (a b : Z) : wrap (a + wrap b) = wrap (a + b).
Proof. unfold wrap. apply Zplus_mod_idemp_r. Qed.

Lemma unique_after_distinct kept l :
  NoDup (map content (kept :: l)) -> unique_after kept l = l.
Proof.
  revert kept; induction l as [|x l IH]; intros kept Hnd; simpl; [reflexivity|].
  unfold content_eq.
  destruct (String.eqb_spec (content kept) (content x)) as [E|E].
  - exfalso. simpl in Hnd. apply NoDup_cons_iff in Hnd. destruct Hnd as [Hnotin _].
    apply Hnotin. left. now symmetry.
  - f_equal. apply IH. simpl in Hnd. now apply NoDup_cons_iff in Hnd.
Qed.

Lemma std_unique_distinct l : NoDup (map content l) -> std_unique l = l.
Proof.
  destruct l as [|x l]; simpl; intros Hnd; [reflexivity|].
  f_equal. now apply unique_after_distinct.
Qed.

(** X8.  After the constructor and any sequence of calls and background
    turns, the event manager and the maintenance thread run exactly when the
    system is running, and the write-back worker has not been stopped:
    [stop()] leaves it running. *)
Theorem lifecycle_is_kept
    {B : Type} `{MemoryManager B} {C : Type} `{LRUCache C}
    (calls : list AdvancedRuns.call) (b : B) (d : Disk) :
  let s : @Advanced.AdvancedMemoryManager B C :=
    AdvancedRuns.run calls (Advanced.create b d) in
  Advanced.eventManager_ s = Advanced.running_ s /\
  Advanced.backgroundThread_ s = Advanced.running_ s /\
  Async.shouldStop (Advanced.asyncManager_ s) = false /\
  Async.saveThread (Advanced.asyncManager_ s) = true.
Proof.
  intros s.
  destruct (AdvancedRunsFacts.run_consistent calls _
              (AdvancedRunsFacts.create_consistent b d))
    as (H1 & H2 & H3 & H4 & H5 & H6 & H7 & H8).
  repeat split; assumption.
Qed.

(** X9.  No call sets the semantic search engine, so after the constructor
    and any sequence of calls a lookup returns the cached item on a hit and
    the base store's related memories on a miss. *)
Theorem lookups_fall_back_to_the_store
    {B : Type} `{MemoryManager B} {C : Type} `{LRUCache C}
    (calls : list AdvancedRuns.call) (b : B) (d : Disk)
    (query : string) (maxResults duration : Z) :
  let s : @Advanced.AdvancedMemoryManager B C :=
    AdvancedRuns.run calls (Advanced.create b d) in
  Advanced.semanticSearch_ s = None /\
  fst (Advanced.searchMemories query maxResults duration s)
  = match fst (cache_get query (Advanced.memoryCache_ s)) with
    | Some item => [item]
    | None => base_getRelatedMemories query maxResults
                (Async.base (Advanced.asyncManager_ s))
    end.
Proof.
  intros s.
  destruct (AdvancedRunsFacts.run_consistent calls _
              (AdvancedRunsFacts.create_consistent b d))
    as (_ & _ & H3 & _).
  fold s in H3. split; [exact H3|].
  unfold Advanced.searchMemories.
  destruct (cache_get query (Advanced.memoryCache_ s)) as [[item|] cache]; simpl;
    [reflexivity|].
  now rewrite H3.
Qed.

(** X10.  After the constructor and any sequence of calls the counter of
    searches equals the counter of cache misses, and the hit and miss
    counters are within the range of [size_t]. *)
Theorem counted_searches_are_the_misses
    {B : Type} `{MemoryManager B} {C : Type} `{LRUCache C}
    (calls : list AdvancedRuns.call) (b : B) (d : Disk) :
  let s : @Advanced.AdvancedMemoryManager B C :=
    AdvancedRuns.run calls (Advanced.create b d) in
  Advanced.totalSearches_ s = Advanced.cacheMisses_ s /\
  (0 <= Advanced.cacheHits_ s < SIZE_MOD)%Z /\
  (0 <= Advanced.cacheMisses_ s < SIZE_MOD)%Z.
Proof.
  intros s.
  destruct (AdvancedRunsFacts.run_consistent calls _
              (AdvancedRunsFacts.create_consistent b d))
    as (_ & _ & _ & H4 & H5 & H6 & _).
  repeat split; tauto.
Qed.

(** X11.  Every lookup is counted once as a hit or as a miss: over a run of
    lookups the sum of the two counters grows by the number of the calls
    (modulo [2^64]). *)
Theorem every_lookup_is_a_hit_or_a_miss
    {B : Type} `{MemoryManager B} {C : Type} `{LRUCache C}
    (calls : list (string * Z)) (maxResults : Z)
    (s : @Advanced.AdvancedMemoryManager B C) :
  wrap (Advanced.cacheHits_ (Advanced.search_run calls maxResults s)
        + Advanced.cacheMisses_ (Advanced.search_run calls maxResults s))
  = wrap (Advanced.cacheHits_ s + Advanced.cacheMisses_ s + Z.of_nat (length calls)).
Proof.
  revert s; induction calls as [|[query duration] calls IH]; intros s.
  - simpl. now rewrite Z.add_0_r.
  - cbn [Advanced.search_run]. rewrite IH.
    destruct (fst (cache_get query (Advanced.memoryCache_ s))) as [item|] eqn:Hc.
    + destruct (AdvancedFacts.searchMemories_hit query maxResults duration s item Hc)
        as (_ & _ & _ & Eh & Em).
      rewrite Eh, Em, <- Z.add_assoc, wrap_add_l. f_equal.
      cbn [length]. lia.
    + destruct (AdvancedFacts.searchMemories_miss query maxResults duration s Hc)
        as (_ & _ & Eh & Em).
      rewrite Eh, Em, (Z.add_comm (Advanced.cacheHits_ s)), <- Z.add_assoc, wrap_add_l.
      f_equal. cbn [length]. lia.
Qed.

(** X12.  [start()] and [stop()] are idempotent: a second call in a row
    changes nothing and publishes nothing; the system runs after [start()]
    and does not after [stop()]; one event is published when the state
    changes and none otherwise; [stop()] leaves the write-back engine, with
    its pending queue, as it is. *)
Theorem start_and_stop_are_idempotent
    {B : Type} `{MemoryManager B} {C : Type} `{LRUCache C}
    (s : @Advanced.AdvancedMemoryManager B C) :
  Advanced.start (Advanced.start s) = Advanced.start s /\
  Advanced.stop (Advanced.stop s) = Advanced.stop s /\
  Advanced.running_ (Advanced.start s) = true /\
  Advanced.running_ (Advanced.stop s) = false /\
  Advanced.eventBus (Advanced.start s)
    = Advanced.eventBus s ++ (if Advanced.running_ s then [] else [SYSTEM_STARTED]) /\
  Advanced.eventBus (Advanced.stop s)
    = Advanced.eventBus s ++ (if Advanced.running_ s then [SYSTEM_STOPPED] else []) /\
  Advanced.asyncManager_ (Advanced.stop s) = Advanced.asyncManager_ s.
Proof.
  unfold Advanced.start, Advanced.stop.
  destruct (Advanced.running_ s) eqn:E; simpl; rewrite ?E; simpl;
    rewrite ?app_nil_r; repeat split.
Qed.

(** X13.  A lookup that misses the cache and finds something puts its first
    result in the cache under the query; when the cache then holds it, the
    next lookup of the same query returns that one item without a search:
    it is counted as a hit, not as a search, and no event is published. *)
Theorem second_lookup_is_served_by_the_cache
    {B : Type} `{MemoryManager B} {C : Type} `{LRUCache C}
    (query : string) (maxResults duration duration' : Z)
    (s : @Advanced.AdvancedMemoryManager B C)
    (first : MemoryItem) (others : list MemoryItem) :
  fst (cache_get query (Advanced.memoryCache_ s)) = None ->
  fst (Advanced.searchMemories query maxResults duration s) = first :: others ->
  fst (cache_get query
         (cache_put query first (snd (cache_get query (Advanced.memoryCache_ s)))))
    = Some first ->
  let s1 := snd (Advanced.searchMemories query maxResults duration s) in
  let s2 := snd (Advanced.searchMemories query maxResults duration' s1) in
  Advanced.memoryCache_ s1
    = cache_put query first (snd (cache_get query (Advanced.memoryCache_ s))) /\
  fst (Advanced.searchMemories query maxResults duration' s1) = [first] /\
  Advanced.totalSearches_ s2 = Advanced.totalSearches_ s1 /\
  Advanced.cacheHits_ s2 = wrap (Advanced.cacheHits_ s + 1) /\
  Advanced.eventBus s2 = Advanced.eventBus s1.
Proof.
  intros Hmiss Hres Hlaw s1 s2.
  assert (Ecache : Advanced.memoryCache_ s1
                   = cache_put query first
                       (snd (cache_get query (Advanced.memoryCache_ s)))).
  { subst s1. revert Hres. unfold Advanced.searchMemories.
    destruct (cache_get query (Advanced.memoryCache_ s)) as [cached cache].
    simpl in Hmiss. subst cached. simpl. intros Hres. rewrite Hres. reflexivity. }
  assert (Hhit : fst (cache_get query (Advanced.memoryCache_ s1)) = Some first)
    by (rewrite Ecache; exact Hlaw).
  destruct (AdvancedFacts.searchMemories_hit query maxResults duration' s1 first Hhit)
    as (E1 & E2 & _ & E4 & _).
  destruct (AdvancedFacts.searchMemories_miss query maxResults duration s Hmiss)
    as (_ & _ & E5 & _).
  destruct (AdvancedRunsFacts.searchMemories_frame query maxResults duration' s1)
    as (_ & _ & _ & _ & E6).
  rewrite Hhit, app_nil_r in E6.
  split; [exact Ecache|]. split; [exact E1|]. split; [exact E2|].
  split; [|exact E6].
  subst s2. rewrite E4. subst s1. now rewrite E5.
Qed.

Lemma second_lookup_is_served_by_the_cache_witness :
  fst (cache_get "m0" (Advanced.memoryCache_ system_1)) = None /\
  fst (Advanced.searchMemories "m0" 10 5 system_1) = [mkItem "m0" Short Work "0"] /\
  fst (cache_get "m0"
         (cache_put "m0" (mkItem "m0" Short Work "0")
            (snd (cache_get "m0" (Advanced.memoryCache_ system_1)))))
    = Some (mkItem "m0" Short Work "0") /\
  fst (Advanced.searchMemories "m0" 10 9
         (snd (Advanced.searchMemories "m0" 10 5 system_1)))
  = [mkItem "m0" Short Work "0"].
Proof.
  assert (Hmiss : fst (cache_get "m0" (Advanced.memoryCache_ system_1)) = None)
    by (vm_compute; reflexivity).
  assert (Hres : fst (Advanced.searchMemories "m0" 10 5 system_1)
                 = [mkItem "m0" Short Work "0"]) by (vm_compute; reflexivity).
  assert (Hlaw : fst (cache_get "m0"
                        (cache_put "m0" (mkItem "m0" Short Work "0")
                           (snd (cache_get "m0" (Advanced.memoryCache_ system_1)))))
                 = Some (mkItem "m0" Short Work "0")) by (vm_compute; reflexivity).
  do 3 (split; [assumption|]).
  exact (proj1 (proj2 (second_lookup_is_served_by_the_cache
                         "m0" 10 5 9 system_1 _ _ Hmiss Hres Hlaw))).
Defined.

(** X14.  [setCacheSize] replaces the cache and keeps the counters: when the
    new cache does not hold a query, the next lookup of it is a miss and is
    counted as a search, whatever the old cache held. *)
Theorem setCacheSize_forgets_the_cached_results
    {B : Type} `{MemoryManager B} {C : Type} `{LRUCache C}
    (size : Z) (query : string) (maxResults duration : Z)
    (s : @Advanced.AdvancedMemoryManager B C) :
  fst (cache_get query (cache_create size)) = None ->
  let s' := AdvancedRuns.setCacheSize size s in
  Advanced.memoryCache_ s' = cache_create size /\
  Advanced.cacheHits_ s' = Advanced.cacheHits_ s /\
  Advanced.cacheMisses_ (snd (Advanced.searchMemories query maxResults duration s'))
    = wrap (Advanced.cacheMisses_ s + 1) /\
  Advanced.totalSearches_ (snd (Advanced.searchMemories query maxResults duration s'))
    = wrap (Advanced.totalSearches_ s + 1) /\
  Advanced.cacheHits_ (snd (Advanced.searchMemories query maxResults duration s'))
    = Advanced.cacheHits_ s.
Proof.
  intros Hnew s'.
  assert (Hmiss : fst (cache_get query (Advanced.memoryCache_ s')) = None) by exact Hnew.
  destruct (AdvancedFacts.searchMemories_miss query maxResults duration s' Hmiss)
    as (E1 & _ & E3 & E4).
  repeat split; assumption.
Qed.

Lemma setCacheSize_forgets_the_cached_results_witness :
  fst (cache_get "m0" (cache_create 5 : ListCache)) = None /\
  Advanced.cacheMisses_
    (snd (Advanced.searchMemories "m0" 10 5 (AdvancedRuns.setCacheSize 5 searched_once)))
  = wrap (Advanced.cacheMisses_ searched_once + 1).
Proof.
  assert (Hnew : fst (cache_get "m0" (cache_create 5 : ListCache)) = None)
    by reflexivity.
  split; [exact Hnew|].
  exact (proj1 (proj2 (proj2 (setCacheSize_forgets_the_cached_results
                                5 "m0" 10 5 searched_once Hnew)))).
Defined.

(** X15.  On a running system [addMemoriesBatch] puts one item per pair on
    the pending queue, in the order of the pairs and with the classifier's
    category, records one access per pair with the weight manager and
    publishes one MEMORY_ADDED event per pair; nothing is written to the
    files by the calls themselves. *)
Theorem addMemoriesBatch_adds_every_pair
    {B : Type} `{MemoryManager B} {C : Type} `{LRUCache C}
    (memories : list (string * MemoryType)) (now : Z)
    (s : @Advanced.AdvancedMemoryManager B C) :
  Advanced.running_ s = true ->
  let s' := Advanced.addMemoriesBatch memories now s in
  Async.pendingWrites (Advanced.asyncManager_ s')
    = Async.pendingWrites (Advanced.asyncManager_ s)
      ++ AdvancedRuns.classified memories now /\
  Async.disk (Advanced.asyncManager_ s') = Async.disk (Advanced.asyncManager_ s) /\
  Advanced.weightManager_ s'
    = Advanced.weightManager_ s
      ++ map (fun m => recordAccess (fst m) (to_string now)) memories /\
  Advanced.eventBus s'
    = Advanced.eventBus s ++ map MEMORY_ADDED (AdvancedRuns.classified memories now).
Proof.
  intros Hrun s'.
  destruct (AdvancedRunsFacts.addMemoriesBatch_running memories now s Hrun)
    as (_ & E2 & E3 & E4 & E5).
  repeat split; assumption.
Qed.

Lemma addMemoriesBatch_adds_every_pair_witness :
  Advanced.running_ (Advanced.start fresh) = true /\
  Async.pendingWrites
    (Advanced.asyncManager_
       (Advanced.addMemoriesBatch [("周末和朋友聚会"%string, Mid); ("hello"%string, Long)] 3
          (Advanced.start fresh)))
  = Async.pendingWrites (Advanced.asyncManager_ (Advanced.start fresh))
    ++ AdvancedRuns.classified [("周末和朋友聚会"%string, Mid); ("hello"%string, Long)] 3.
Proof.
  assert (Hrun : Advanced.running_ (Advanced.start fresh) = true) by reflexivity.
  split; [exact Hrun|].
  exact (proj1 (addMemoriesBatch_adds_every_pair
                  [("周末和朋友聚会"%string, Mid); ("hello"%string, Long)] 3
                  (Advanced.start fresh) Hrun)).
Defined.

(** X16.  On a running system a category other than [Other] given to
    [addMemory] is kept as given, whatever keywords the content holds: the
    classifier is not consulted. *)
Theorem addMemory_keeps_an_explicit_category
    {B : Type} `{MemoryManager B} {C : Type} `{LRUCache C}
    (c : string) (t : MemoryType) (cat : MemoryCategory) (now : Z)
    (s : @Advanced.AdvancedMemoryManager B C) :
  Advanced.running_ s = true ->
  cat <> Other ->
  let s' := Advanced.addMemory c t cat now s in
  Async.pendingWrites (Advanced.asyncManager_ s')
    = Async.pendingWrites (Advanced.asyncManager_ s) ++ [mkItem c t cat (to_string now)] /\
  Async.base (Advanced.asyncManager_ s')
    = base_addMemory c t cat now (Async.base (Advanced.asyncManager_ s)) /\
  Advanced.weightManager_ s'
    = Advanced.weightManager_ s ++ [recordAccess c (to_string now)] /\
  Advanced.eventBus s'
    = Advanced.eventBus s ++ [MEMORY_ADDED (mkItem c t cat (to_string now))].
Proof.
  intros Hrun Hcat s'. subst s'.
  rewrite AdvancedFacts.addMemory_running by exact Hrun.
  assert (E : MemoryCategory_eqb cat Other = false)
    by (destruct cat; try reflexivity; contradiction).
  rewrite E. simpl. rewrite AsyncFacts.addMemory_pending. repeat split.
  unfold Async.addMemory, Async.asyncSave. case_if; reflexivity.
Qed.

Lemma addMemory_keeps_an_explicit_category_witness :
  Advanced.running_ (Advanced.start fresh) = true /\
  Family <> Other /\
  classifyMemory "公司项目进展" = Work /\
  Async.pendingWrites
    (Advanced.asyncManager_
       (Advanced.addMemory "公司项目进展" Long Family 0 (Advanced.start fresh)))
  = Async.pendingWrites (Advanced.asyncManager_ (Advanced.start fresh))
    ++ [mkItem "公司项目进展" Long Family (to_string 0)].
Proof.
  assert (Hrun : Advanced.running_ (Advanced.start fresh) = true) by reflexivity.
  assert (Hcat : Family <> Other) by discriminate.
  split; [exact Hrun|]. split; [exact Hcat|].
  split; [vm_compute; reflexivity|].
  exact (proj1 (addMemory_keeps_an_explicit_category
                  "公司项目进展" Long Family 0 (Advanced.start fresh) Hrun Hcat)).
Defined.

(** X17.  The lower-casing step has no effect on the classification: the
    category is the first one, in the order Work, Family, Friendship,
    Happiness, with a keyword occurring in the text as given, and a text and
    its lower-cased form classify alike. *)
Theorem classifyMemory_reads_the_text_as_given (text : string) :
  first_match text [Work; Family; Friendship; Happiness] (classifyMemory text) /\
  classifyMemory (Str.transform_tolower text) = classifyMemory text.
Proof.
  assert (Hraw : forall t, first_match t classify_order (classifyMemory t)).
  { intros t. apply (AdvancedRunsFacts.first_match_ext (Str.transform_tolower t)).
    - intros c. apply AdvancedRunsFacts.matches_lower_iff.
    - apply classifyMemory_first_match. }
  split; [apply Hraw|].
  apply (first_match_functional text classify_order).
  - apply (AdvancedRunsFacts.first_match_ext (Str.transform_tolower text)).
    + intros c. apply AdvancedRunsFacts.matches_lower_iff.
    + apply Hraw.
  - apply Hraw.
Qed.

(** X18.  When the contents of the concatenated per-query results are
    pairwise different, [searchMemoriesBatch] drops nothing: it returns a
    rearrangement of them. *)
Theorem searchMemoriesBatch_keeps_distinct_results
    {B : Type} `{MemoryManager B} {C : Type} `{LRUCache C}
    (std_sort : list MemoryItem -> list MemoryItem)
    (queries : list string) (maxResults : Z) (durations : list Z)
    (s : @Advanced.AdvancedMemoryManager B C) :
  std_sort_contract std_sort ->
  NoDup (map content (concat (Advanced.results_of queries maxResults durations s))) ->
  Permutation
    (fst (Advanced.searchMemoriesBatch std_sort queries maxResults durations s))
    (concat (Advanced.results_of queries maxResults durations s)).
Proof.
  intros Hsort Hnd.
  set (allResults := concat (Advanced.results_of queries maxResults durations s)) in *.
  assert (E : fst (Advanced.searchMemoriesBatch std_sort queries maxResults durations s)
              = std_unique (std_sort allResults)).
  { subst allResults. unfold Advanced.searchMemoriesBatch.
    pose proof (AdvancedFacts.search_all_concat queries maxResults durations [] s) as Hc.
    destruct (Advanced.search_all queries maxResults durations [] s) as [l s'].
    simpl in *. now rewrite Hc. }
  destruct (Hsort allResults) as [Hperm _].
  rewrite E, std_unique_distinct; [exact Hperm|].
  apply (Permutation_NoDup (l := map content allResults)); [|exact Hnd].
  apply Permutation_map. now apply Permutation_sym.
Qed.

Lemma searchMemoriesBatch_keeps_distinct_results_witness :
  std_sort_contract insertion_sort /\
  NoDup (map content
           (concat (Advanced.results_of ["m1"; "m0"]%string 10 [] system_2))) /\
  Permutation
    (fst (Advanced.searchMemoriesBatch insertion_sort ["m1"; "m0"]%string 10 [] system_2))
    (concat (Advanced.results_of ["m1"; "m0"]%string 10 [] system_2)).
Proof.
  assert (Hnd : NoDup (map content
                         (concat (Advanced.results_of ["m1"; "m0"]%string 10 []
                                    system_2)))).
  { vm_compute. repeat constructor; simpl; intuition discriminate. }
  split; [exact insertion_sort_contract|]. split; [exact Hnd|].
  exact (searchMemoriesBatch_keeps_distinct_results
           insertion_sort ["m1"; "m0"]%string 10 [] system_2
           insertion_sort_contract Hnd).
Defined.

(** X19.  For the cache, the counters and the events a batch search is the
    sequence of its lookups: [searchMemoriesBatch] leaves the state that
    calling [searchMemories] for each query in turn leaves, so a query
    repeated in a batch can be served by the cache entry its first lookup
    made. *)
Theorem searchMemoriesBatch_is_a_run_of_lookups
    {B : Type} `{MemoryManager B} {C : Type} `{LRUCache C}
    (std_sort : list MemoryItem -> list MemoryItem)
    (queries : list string) (maxResults : Z) (durations : list Z)
    (s : @Advanced.AdvancedMemoryManager B C) :
  snd (Advanced.searchMemoriesBatch std_sort queries maxResults durations s)
  = Advanced.search_run (AdvancedRuns.lookups queries durations) maxResults s.
Proof.
  unfold Advanced.searchMemoriesBatch.
  pose proof (AdvancedRunsFacts.search_all_state queries maxResults durations [] s) as E.
  destruct (Advanced.search_all queries maxResults durations [] s) as [l s'].
  exact E.
Qed.



(** X21.  A lookup never touches the write-back engine (store, pending
    queue, files), the weight manager or the running state, and works on a
    stopped system as on a running one; it publishes MEMORY_SEARCHED with
    the query on a cache miss and nothing on a hit. *)
Theorem searchMemories_leaves_the_engine_alone
    {B : Type} `{MemoryManager B} {C : Type} `{LRUCache C}
    (query : string) (maxResults duration : Z)
    (s : @Advanced.AdvancedMemoryManager B C) :
  let s' := snd (Advanced.searchMemories query maxResults duration s) in
  Advanced.asyncManager_ s' = Advanced.asyncManager_ s /\
  Advanced.weightManager_ s' = Advanced.weightManager_ s /\
  Advanced.running_ s' = Advanced.running_ s /\
  Advanced.eventBus s'
    = Advanced.eventBus s ++
      match fst (cache_get query (Advanced.memoryCache_ s)) with
      | Some _ => []
      | None => [MEMORY_SEARCHED query]
      end.
Proof.
  intros s'.
  destruct (AdvancedRunsFacts.searchMemories_frame query maxResults duration s)
    as (E1 & E2 & E3 & _ & E5).
  repeat split; assumption.
Qed.

(** X22.  A clean shutdown after a batch of at most [BATCH_SIZE] pairs:
    after the constructor, [start()], [addMemoriesBatch] and the destructor,
    with no turn of the worker needed, the system is stopped and the pending
    queue is empty, whatever becomes of the write; for a type whose write is
    delivered nothing is lost: the file holds what it held followed by the
    lines of the pairs of that type, in their order and with the
    classifier's categories. *)
Theorem clean_shutdown_of_a_small_batch
    {B : Type} `{MemoryManager B} {C : Type} `{LRUCache C}
    (io : Async.Outcome)
    (memories : list (string * MemoryType)) (now : Z) (b : B) (d : Disk) :
  (length memories <= Async.BATCH_SIZE)%nat ->
  let s : @Advanced.AdvancedMemoryManager B C :=
    Advanced.destroy io
      (Advanced.addMemoriesBatch memories now (Advanced.start (Advanced.create b d))) in
  Advanced.running_ s = false /\
  Async.pendingWrites (Advanced.asyncManager_ s) = [] /\
  forall t, AsyncRuns.delivers t io = true ->
            destination t (Async.disk (Advanced.asyncManager_ s))
            = destination t d
              ++ AsyncRuns.lines_of t (AdvancedRuns.classified memories now).
Proof.
  intros Hlen s.
  set (s0 := Advanced.start (Advanced.create b d) : @Advanced.AdvancedMemoryManager B C)
    in *.
  assert (Hrun : Advanced.running_ s0 = true) by reflexivity.
  destruct (AdvancedRunsFacts.addMemoriesBatch_running memories now s0 Hrun)
    as (_ & Eq & Ed & _).
  simpl in Eq, Ed.
  set (s1 := Advanced.addMemoriesBatch memories now s0) in *.
  assert (Ea : Advanced.asyncManager_ s
               = Async.destroy io (Advanced.asyncManager_ s1)).
  { subst s. unfold Advanced.destroy. simpl.
    now rewrite AdvancedRunsFacts.stop_asyncManager. }
  assert (Epend : Async.pendingWrites (Advanced.asyncManager_ s) = []).
  { rewrite Ea, AsyncFacts.destroy_pending, Eq. apply skipn_all2.
    unfold AdvancedRuns.classified. now rewrite length_map. }
  split; [|split; [exact Epend|]].
  - subst s. unfold Advanced.destroy. simpl. apply AdvancedRunsFacts.stop_running.
  - intros t Hd.
    rewrite <- (AsyncRunsFacts.ledger_empty_queue t _ Epend), Ea.
    rewrite AsyncRunsFacts.ledger_destroy by exact Hd.
    rewrite AsyncRunsFacts.ledger_idle. now rewrite Eq, Ed.
Qed.

Lemma clean_shutdown_of_a_small_batch_witness :
  (length [("周末和朋友聚会"%string, Mid); ("hello"%string, Long)] <= Async.BATCH_SIZE)%nat /\
  AsyncRuns.delivers Mid Async.success = true /\
  destination Mid
    (Async.disk
       (Advanced.asyncManager_
          (Advanced.destroy Async.success
             (Advanced.addMemoriesBatch
                [("周末和朋友聚会"%string, Mid); ("hello"%string, Long)] 3
                (Advanced.start (Advanced.create ([] : ListStore) empty_disk
                                 : @Advanced.AdvancedMemoryManager ListStore ListCache))))))
  = destination Mid empty_disk
    ++ AsyncRuns.lines_of Mid
         (AdvancedRuns.classified [("周末和朋友聚会"%string, Mid); ("hello"%string, Long)] 3).
Proof.
  assert (Hlen : (length [("周末和朋友聚会"%string, Mid); ("hello"%string, Long)]
                  <= Async.BATCH_SIZE)%nat)
    by (vm_compute; repeat constructor).
  assert (Hd : AsyncRuns.delivers Mid Async.success = true) by reflexivity.
  split; [exact Hlen|]. split; [exact Hd|].
  exact (proj2 (proj2 (clean_shutdown_of_a_small_batch Async.success
                         [("周末和朋友聚会"%string, Mid); ("hello"%string, Long)] 3
                         ([] : ListStore) empty_disk Hlen)) Mid Hd).
Defined.
